(** * zwave-js-server: the session and dispatch layer

    A shallow embedding of [src/lib/server.ts] (classes [Client] and
    [Clients]) together with the envelope shapes of
    [src/lib/outgoing_message.ts], and the properties of the session
    protocol stated over it.

    Conventions.
    - A JavaScript value that travels through the session layer is a
      [Value]; the object literals handed to [sendData] are [JObject]s.
    - A [Client] object lives in a heap (a list addressed by index, objects
      are never freed), the registry's [clients] array holds references.
    - Calls made on the transport ([send], [ping], [close]) are recorded in
      the socket they are made on, in program order.
    - Timers of the event loop ([setInterval], [setTimeout]) are part of the
      state of the [System]. *)

From Stdlib Require Import ZArith Ascii String.
From stdpp Require Import base list strings relations.

Open Scope string_scope.
Open Scope list_scope.

Set Warnings "-register-all".

(** ** JavaScript values *)

(** Numbers met by this layer are only copied ([homeId], payloads), so an
    integer carrier is enough. *)
Inductive Value :=
| JUndefined
| JNull
| JBool (b : bool)
| JNumber (n : Z)
| JString (s : string)
| JArray (items : list Value)
| JObject (props : list (string * Value)).

(** What a [throw] can carry in this layer.  [BaseError] and its subclass
    [UnknownCommandError] come from [./error]; [ZWaveError] is the error class
    of the device library and [Error]/[TypeError] are the built-in ones. *)
Inductive Thrown :=
| TypeError
| Error (message : string)
| BaseError (errorCode : string)
| UnknownCommandError (command : string)
| ZWaveError (code : Z) (message : string).

(** A settled promise, or a call that returned or threw. *)
Inductive Outcome :=
| Resolve (result : Value)
| Reject (err : Thrown).

(** Modelled from the spec: the error taxonomy of [./error], which is not
    among the sources.  Each kind has a stable string code used on the wire;
    the codes are named as the specification names them. *)
Module ErrorCode.
Definition unknownError : string := "unknownError".
Definition unknownCommand : string := "unknownCommand".
Definition zwaveError : string := "zwaveError".
End ErrorCode.

(** Modelled from the spec: the handler groups of [./instance], which is not
    among the sources (controller-, driver- and node-scoped operations;
    [driver/command.ts] shows the prefix ["driver"]). *)
Module Instance.
Definition controller : string := "controller".
Definition driver : string := "driver".
Definition node : string := "node".
End Instance.

(** [err instanceof BaseError], and [err.errorCode] when it holds.
    Modelled from the spec for the classes of [./error]:
    [UnknownCommandError] is the [BaseError] whose code is [unknownCommand]. *)
Definition instanceofBaseError (err : Thrown) : option string :=
  match err with
  | BaseError code => Some code
  | UnknownCommandError _ => Some ErrorCode.unknownCommand
  | TypeError | Error _ | ZWaveError _ _ => None
  end.

(** Own-property lookup in an object literal. *)
Fixpoint assoc (key : string) (props : list (string * Value)) : option Value :=
  match props with
  | [] => None
  | (k, v) :: rest => if String.eqb k key then Some v else assoc key rest
  end.

(** [v.key] for the keys this layer reads, ["command"] and ["messageId"],
    which no built-in prototype defines: reading a property of [null] or
    [undefined] throws a [TypeError], a missing property is [undefined]. *)
Definition getProp (key : string) (v : Value) : Thrown + Value :=
  match v with
  | JUndefined | JNull => inl TypeError
  | JObject props => inr (default JUndefined (assoc key props))
  | JBool _ | JNumber _ | JString _ | JArray _ => inr JUndefined
  end.

(** [v === "literal"]. *)
Definition strictEqString (v : Value) (lit : string) : bool :=
  match v with
  | JString s => String.eqb s lit
  | _ => false
  end.

(** [s.split(sep)] for a one-character separator: never empty. *)
Fixpoint split (sep : ascii) (s : string) : list string :=
  match s with
  | EmptyString => [EmptyString]
  | String c rest =>
      if Ascii.eqb c sep then EmptyString :: split sep rest
      else match split sep rest with
           | [] => [String c EmptyString]
           | part :: parts => String c part :: parts
           end
  end.

(** [JSON.stringify] seen as a map on values: a property whose value is
    [undefined] is left out of an object, an [undefined] array item becomes
    [null].  The characters of the encoding are not modelled. *)
Fixpoint JSON_stringify (v : Value) : Value :=
  match v with
  | JObject props =>
      JObject
        ((fix go (ps : list (string * Value)) : list (string * Value) :=
            match ps with
            | [] => []
            | (k, JUndefined) :: rest => go rest
            | (k, x) :: rest => (k, JSON_stringify x) :: go rest
            end) props)
  | JArray items =>
      JArray
        ((fix go (xs : list Value) : list Value :=
            match xs with
            | [] => []
            | JUndefined :: rest => JNull :: go rest
            | x :: rest => JSON_stringify x :: go rest
            end) items)
  | _ => v
  end.

(** Property lookup in an encoded envelope. *)
Definition field (key : string) (frame : Value) : option Value :=
  match frame with
  | JObject props => assoc key props
  | _ => None
  end.

(** ** The transport boundary *)

Inductive ReadyState := CONNECTING | OPEN | CLOSING | CLOSED.

Inductive SocketCall :=
| CallSend (data : Value)
| CallPing
| CallClose.

Record WebSocket := {
  readyState : ReadyState;
  calls : list SocketCall
}.

(** The [ws] library is a dependency, not part of the repository: a socket
    records the calls made on it, and [close] leaves the [OPEN] state. *)
Module Socket.

Definition send (data : Value) (s : WebSocket) : WebSocket :=
  {| readyState := readyState s; calls := calls s ++ [CallSend data] |}.

Definition ping (s : WebSocket) : WebSocket :=
  {| readyState := readyState s; calls := calls s ++ [CallPing] |}.

Definition close (s : WebSocket) : WebSocket :=
  {| readyState := match readyState s with
                   | CONNECTING | OPEN => CLOSING
                   | st => st
                   end;
     calls := calls s ++ [CallClose] |}.

(** The transport has closed the connection (before it notifies). *)
Definition closed (s : WebSocket) : WebSocket :=
  {| readyState := CLOSED; calls := calls s |}.

Definition isOpen (s : WebSocket) : bool :=
  match readyState s with OPEN => true | _ => false end.

End Socket.

(** ** External collaborators

    What the code reaches outside [src/], as observed at one moment:
    [version] of [./const], [driver.controller.homeId], [dumpState(driver)]
    of [./state], the two handler groups of [./controller/message_handler]
    and [./node/message_handler] (an awaited call settles with a payload or
    a thrown value), and what calling a member inherited from
    [Object.prototype] with the message does. *)
Record Env := {
  version : string;
  homeId : option Z;
  dumpState : Value;
  ControllerMessageHandler_handle : Value -> Outcome;
  NodeMessageHandler_handle : Value -> Outcome;
  Object_prototype_call : string -> Value -> Outcome
}.

(** ** class Client *)

Record Client := {
  receiveEvents : bool;
  _outstandingPing : bool;
  socket : WebSocket
}.

(** The property names every object literal inherits from
    [Object.prototype]; all of them hold truthy values. *)
Definition Object_prototype : list string :=
  [ "constructor"; "__defineGetter__"; "__defineSetter__"; "hasOwnProperty";
    "__lookupGetter__"; "__lookupSetter__"; "isPrototypeOf";
    "propertyIsEnumerable"; "toString"; "valueOf"; "__proto__";
    "toLocaleString" ].

Inductive Handler :=
| ControllerHandler
| DriverHandler
| NodeHandler
| Inherited (name : string).

(** The handlers registered in the [instanceHandlers] literal. *)
Definition registered (key : string) : option Handler :=
  if String.eqb key Instance.controller then Some ControllerHandler
  else if String.eqb key Instance.driver then Some DriverHandler
  else if String.eqb key Instance.node then Some NodeHandler
  else None.

(** [this.instanceHandlers[key]]: the literal's own properties first, then
    the prototype chain; [None] is [undefined]. *)
Definition instanceHandlers (key : string) : option Handler :=
  match registered key with
  | Some h => Some h
  | None =>
      if existsb (String.eqb key) Object_prototype then Some (Inherited key)
      else None
  end.

(** [await this.instanceHandlers[instance](msg)]. *)
Definition callHandler (env : Env) (h : Handler) (msg : Value) : Outcome :=
  match h with
  | ControllerHandler => ControllerMessageHandler_handle env msg
  | DriverHandler => Reject (Error "Driver handler not implemented.")
  | NodeHandler => NodeMessageHandler_handle env msg
  | Inherited name => Object_prototype_call env name msg
  end.

Module Client.

(** [new Client(socket, driver)]. *)
Definition new (sock : WebSocket) : Client :=
  {| receiveEvents := false; _outstandingPing := false; socket := sock |}.

(** The ["pong"] listener installed by the constructor. *)
Definition onPong (c : Client) : Client :=
  {| receiveEvents := receiveEvents c;
     _outstandingPing := false;
     socket := socket c |}.

Definition isConnected (c : Client) : bool := Socket.isOpen (socket c).

Definition sendData (data : Value) (c : Client) : Client :=
  {| receiveEvents := receiveEvents c;
     _outstandingPing := _outstandingPing c;
     socket := Socket.send (JSON_stringify data) (socket c) |}.

Definition sendVersion (env : Env) (c : Client) : Client :=
  sendData
    (JObject [ ("type", JString "version");
               ("driverVersion", JString "TBD");
               ("serverVersion", JString (version env));
               ("homeId", from_option JNumber JUndefined (homeId env)) ])
    c.

Definition sendResultSuccess (messageId result : Value) (c : Client) : Client :=
  sendData
    (JObject [ ("type", JString "result");
               ("success", JBool true);
               ("messageId", messageId);
               ("result", result) ])
    c.

Definition sendResultError (messageId : Value) (errorCode : string)
    (c : Client) : Client :=
  sendData
    (JObject [ ("type", JString "result");
               ("success", JBool false);
               ("messageId", messageId);
               ("errorCode", JString errorCode) ])
    c.

Definition sendEvent (event : Value) (c : Client) : Client :=
  sendData (JObject [ ("type", JString "event"); ("event", event) ]) c.

Definition disconnect (c : Client) : Client :=
  {| receiveEvents := receiveEvents c;
     _outstandingPing := _outstandingPing c;
     socket := Socket.close (socket c) |}.

Definition checkAlive (c : Client) : Client :=
  if _outstandingPing c then disconnect c
  else {| receiveEvents := receiveEvents c;
          _outstandingPing := true;
          socket := Socket.ping (socket c) |}.

Definition setReceiveEvents (b : bool) (c : Client) : Client :=
  {| receiveEvents := b;
     _outstandingPing := _outstandingPing c;
     socket := socket c |}.

(** How a block of statements ends: normally, or by a [throw]; in both
    cases with the session as the block left it. *)
Inductive Completion :=
| Normal (c : Client)
| Throw (err : Thrown) (c : Client).

(** The second [try] block of [receiveMessage] (lines 62 to 78). *)
Definition dispatch (env : Env) (msg : Value) (c : Client) : Completion :=
  match getProp "command" msg with
  | inl err => Throw err c
  | inr command =>
      if strictEqString command "start_listening" then
        match getProp "messageId" msg with
        | inl err => Throw err c
        | inr messageId =>
            Normal
              (setReceiveEvents true
                 (sendResultSuccess messageId
                    (JObject [ ("state", dumpState env) ]) c))
        end
      else
        match command with
        | JString cmd =>
            let instance := hd EmptyString (split "." cmd) in
            match instanceHandlers instance with
            | Some h =>
                match getProp "messageId" msg with
                | inl err => Throw err c
                | inr messageId =>
                    match callHandler env h msg with
                    | Resolve result =>
                        Normal (sendResultSuccess messageId result c)
                    | Reject err => Throw err c
                    end
                end
            | None => Throw (UnknownCommandError cmd) c
            end
        | _ => Throw TypeError c (* [msg.command.split] is not callable *)
        end
  end.

(** The [catch] clause (lines 79 to 87); reading [msg.messageId] may itself
    throw, and then the promise of [receiveMessage] is rejected. *)
Definition handleError (msg : Value) (err : Thrown) (c : Client)
    : Client * option Thrown :=
  let errorCode :=
    match instanceofBaseError err with
    | Some code => code
    | None => ErrorCode.unknownError
    end in
  match getProp "messageId" msg with
  | inl err' => (c, Some err')
  | inr messageId => (sendResultError messageId errorCode c, None)
  end.

(** [receiveMessage(data)], given what [JSON.parse(data)] does: [None] when
    it throws, the parsed value otherwise.  The result is the session
    afterwards and the rejection of the returned promise, if any.  The
    awaited handler call is taken at its settlement: whatever runs in
    between only appends to the record of the socket and never clears
    [receiveEvents]. *)
Definition receiveMessage (env : Env) (parsed : option Value) (c : Client)
    : Client * option Thrown :=
  match parsed with
  | None => (disconnect c, None)
  | Some msg =>
      match dispatch env msg c with
      | Normal c' => (c', None)
      | Throw err c' => handleError msg err c'
      end
  end.

End Client.

(** ** class Clients and the event loop around it *)

(** Modelled from the spec: the Event Forwarder of [./forward], which is not
    among the sources.  Once started it hands every upstream event to the
    callback it was built with, exactly once. *)
Record EventForwarder := { started : bool }.

Record Clients := {
  clients : list nat;
  pingInterval : option nat;
  eventForwarder : option EventForwarder;
  cleanupScheduled : bool
}.

(** The registry, the [Client] objects it has created, and the timers of
    the event loop: the handles of the running intervals, the next free
    handle, and the number of [cleanupClients] callbacks queued by
    [setTimeout]. *)
Record System := {
  heap : list Client;
  registry : Clients;
  intervals : list nat;
  nextTimer : nat;
  timeouts : nat
}.

Module Timers.

(** [clearInterval(handle)]. *)
Definition clearInterval (handle : nat) (running : list nat) : list nat :=
  List.filter (fun h => negb (Nat.eqb h handle)) running.

End Timers.

Module Clients.

(** [new Clients(driver)] in a fresh process. *)
Definition new : System :=
  {| heap := [];
     registry := {| clients := []; pingInterval := None;
                    eventForwarder := None; cleanupScheduled := false |};
     intervals := []; nextTimer := 0; timeouts := 0 |}.

Definition isConnectedAt (h : list Client) (r : nat) : bool :=
  match h !! r with
  | Some c => Client.isConnected c
  | None => false
  end.

(** [addSocket(socket)]. *)
Definition addSocket (env : Env) (sock : WebSocket) (s : System) : System :=
  let client := Client.sendVersion env (Client.new sock) in
  let r := length (heap s) in
  let reg := registry s in
  let starts := match pingInterval reg with None => true | Some _ => false end in
  {| heap := heap s ++ [client];
     registry :=
       {| clients := clients reg ++ [r];
          pingInterval :=
            match pingInterval reg with
            | None => Some (nextTimer s)
            | Some h => Some h
            end;
          eventForwarder :=
            match eventForwarder reg with
            | None => Some {| started := true |}
            | Some f => Some f
            end;
          cleanupScheduled := cleanupScheduled reg |};
     intervals := if starts then intervals s ++ [nextTimer s] else intervals s;
     nextTimer := if starts then S (nextTimer s) else nextTimer s;
     timeouts := timeouts s |}.

(** The loop of the interval callback (lines 166 to 172). *)
Fixpoint sweepLoop (refs : list nat) (h : list Client) (newClients : list nat)
    : list Client * list nat :=
  match refs with
  | [] => (h, newClients)
  | r :: rest =>
      match h !! r with
      | Some c =>
          if Client.isConnected c then sweepLoop rest h (newClients ++ [r])
          else sweepLoop rest (<[r := Client.disconnect c]> h) newClients
      | None => sweepLoop rest h newClients
      end
  end.

(** The callback given to [setInterval] (lines 163 to 175). *)
Definition sweep (s : System) : System :=
  let '(h, newClients) := sweepLoop (clients (registry s)) (heap s) [] in
  {| heap := h;
     registry :=
       {| clients := newClients;
          pingInterval := pingInterval (registry s);
          eventForwarder := eventForwarder (registry s);
          cleanupScheduled := cleanupScheduled (registry s) |};
     intervals := intervals s; nextTimer := nextTimer s;
     timeouts := timeouts s |}.

(** The loop of the callback given to the Event Forwarder
    (lines 180 to 184). *)
Fixpoint fanOutLoop (event : Value) (refs : list nat) (h : list Client)
    : list Client :=
  match refs with
  | [] => h
  | r :: rest =>
      match h !! r with
      | Some c =>
          if receiveEvents c && Client.isConnected c
          then fanOutLoop event rest (<[r := Client.sendEvent event c]> h)
          else fanOutLoop event rest h
      | None => fanOutLoop event rest h
      end
  end.

Definition fanOut (event : Value) (s : System) : System :=
  {| heap := fanOutLoop event (clients (registry s)) (heap s);
     registry := registry s;
     intervals := intervals s; nextTimer := nextTimer s;
     timeouts := timeouts s |}.

Definition scheduleClientCleanup (s : System) : System :=
  if cleanupScheduled (registry s) then s
  else
    {| heap := heap s;
       registry :=
         {| clients := clients (registry s);
            pingInterval := pingInterval (registry s);
            eventForwarder := eventForwarder (registry s);
            cleanupScheduled := true |};
       intervals := intervals s; nextTimer := nextTimer s;
       timeouts := S (timeouts s) |}.

Definition cleanupClients (s : System) : System :=
  {| heap := heap s;
     registry :=
       {| clients := List.filter (isConnectedAt (heap s)) (clients (registry s));
          pingInterval := pingInterval (registry s);
          eventForwarder := eventForwarder (registry s);
          cleanupScheduled := false |};
     intervals := intervals s; nextTimer := nextTimer s;
     timeouts := timeouts s |}.

(** [this.clients.forEach((client) => client.disconnect())]. *)
Fixpoint disconnectAll (refs : list nat) (h : list Client) : list Client :=
  match refs with
  | [] => h
  | r :: rest => disconnectAll rest (alter Client.disconnect r h)
  end.

(** [disconnect()], the shutdown of the registry. *)
Definition disconnect (s : System) : System :=
  {| heap := disconnectAll (clients (registry s)) (heap s);
     registry :=
       {| clients := [];
          pingInterval := None;
          eventForwarder := eventForwarder (registry s);
          cleanupScheduled := cleanupScheduled (registry s) |};
     intervals :=
       match pingInterval (registry s) with
       | Some h => Timers.clearInterval h (intervals s)
       | None => intervals s
       end;
     nextTimer := nextTimer s;
     timeouts := timeouts s |}.

End Clients.

(** ** What can happen to the system *)

Inductive Input :=
| Connection (env : Env) (sock : WebSocket)
| Message (r : nat) (env : Env) (parsed : option Value)
| Pong (r : nat)
| SocketClosed (r : nat)
| IntervalFires (handle : nat)
| TimeoutFires
| Upstream (event : Value)
| Shutdown.

Definition withHeap (h : list Client) (s : System) : System :=
  {| heap := h; registry := registry s; intervals := intervals s;
     nextTimer := nextTimer s; timeouts := timeouts s |}.

(** One turn of the event loop; [None] when the input cannot occur in the
    state (a reference to no object, a timer that is not running, an event
    from a forwarder that was never started). *)
Definition step (s : System) (i : Input) : option System :=
  match i with
  | Connection env sock => Some (Clients.addSocket env sock s)
  | Message r env parsed =>
      c ← heap s !! r;
      Some (withHeap (<[r := fst (Client.receiveMessage env parsed c)]> (heap s)) s)
  | Pong r =>
      c ← heap s !! r;
      Some (withHeap (<[r := Client.onPong c]> (heap s)) s)
  | SocketClosed r =>
      c ← heap s !! r;
      Some (Clients.scheduleClientCleanup
              (withHeap
                 (<[r := {| receiveEvents := receiveEvents c;
                            _outstandingPing := _outstandingPing c;
                            socket := Socket.closed (socket c) |}]> (heap s)) s))
  | IntervalFires handle =>
      if existsb (Nat.eqb handle) (intervals s) then Some (Clients.sweep s)
      else None
  | TimeoutFires =>
      match timeouts s with
      | O => None
      | S n =>
          Some (Clients.cleanupClients
                  {| heap := heap s; registry := registry s;
                     intervals := intervals s; nextTimer := nextTimer s;
                     timeouts := n |})
      end
  | Upstream event =>
      match eventForwarder (registry s) with
      | Some f => if started f then Some (Clients.fanOut event s) else None
      | None => None
      end
  | Shutdown => Some (Clients.disconnect s)
  end.

Fixpoint run (s : System) (inputs : list Input) : option System :=
  match inputs with
  | [] => Some s
  | i :: rest => s' ← step s i; run s' rest
  end.

(** ** Vocabulary of the statements, and sample inputs *)

(** A command envelope [{ messageId, command }]. *)
Definition commandEnvelope (messageId cmd : string) : Value :=
  JObject [ ("messageId", JString messageId); ("command", JString cmd) ].

(** The group of a command: what precedes its first dot. *)
Definition groupOf (cmd : string) : string := hd EmptyString (split "." cmd).

(** The [messageId] property an encoded reply has for a message. *)
Definition echoedMessageId (msg : Value) : option Value :=
  match getProp "messageId" msg with
  | inr JUndefined | inl _ => None
  | inr v => Some (JSON_stringify v)
  end.

(** An encoded frame is a result envelope. *)
Definition isResult (frame : Value) : Prop :=
  field "type" frame = Some (JString "result").

(** Some property of the frame holds the string [s]. *)
Definition carries (frame : Value) (s : string) : Prop :=
  match frame with
  | JObject props => In (JString s) (map snd props)
  | _ => False
  end.

(** The property names of an encoded envelope, in order. *)
Definition keys (frame : Value) : list string :=
  match frame with
  | JObject props => map fst props
  | _ => []
  end.

(** The event envelope as encoded. *)
Definition eventEnvelope (event : Value) : Value :=
  JSON_stringify (JObject [ ("type", JString "event"); ("event", event) ]).

(** The snapshot payload of [start_listening] as encoded. *)
Definition snapshot (env : Env) : Value :=
  JSON_stringify (JObject [ ("state", dumpState env) ]).

(** Processing the parsed message [msg] settles without rejection, makes
    exactly one call on the transport, a [send] of one result envelope that
    echoes the message's [messageId], and leaves the connection state alone;
    [P] says more about the session afterwards and the frame. *)
Definition repliesWith (env : Env) (msg : Value) (c : Client)
    (P : Client → Value → Prop) : Prop :=
  ∃ c' frame,
    Client.receiveMessage env (Some msg) c = (c', None)
    ∧ calls (socket c') = calls (socket c) ++ [CallSend frame]
    ∧ readyState (socket c') = readyState (socket c)
    ∧ isResult frame
    ∧ field "messageId" frame = echoedMessageId msg
    ∧ P c' frame.

(** The invariant of the registry and its timers: the array holds distinct
    references to existing sessions, the only running interval is the one
    the registry remembers, and a cleanup callback is queued exactly when
    the flag says so. *)
Record consistent (s : System) : Prop := {
  refs_distinct : NoDup (clients (registry s));
  refs_bound : Forall (λ r, r < length (heap s)) (clients (registry s));
  one_interval : intervals s = option_list (pingInterval (registry s));
  one_cleanup :
    timeouts s = if cleanupScheduled (registry s) then 1 else 0
}.

Definition openSocket : WebSocket := {| readyState := OPEN; calls := [] |}.

(** What the members of [Object.prototype] do when called on the handler
    table with a message that has no own property of their names: the
    result as [JSON.stringify] shows it, or the [TypeError] of calling
    something that is not a function or lacks an argument. *)
Definition sampleObjectPrototype (name : string) (msg : Value) : Outcome :=
  if existsb (String.eqb name) [ "toString"; "toLocaleString" ]
  then Resolve (JString "[object Object]")
  else if existsb (String.eqb name)
            [ "hasOwnProperty"; "isPrototypeOf"; "propertyIsEnumerable" ]
  then Resolve (JBool false)
  else if String.eqb name "constructor" then Resolve msg
  else if String.eqb name "valueOf" then Resolve (JObject [])
  else if existsb (String.eqb name) [ "__lookupGetter__"; "__lookupSetter__" ]
  then Resolve JUndefined
  else Reject TypeError.

(** A device whose node group fails with a domain error and whose
    controller group answers with an empty payload. *)
Definition sampleEnv : Env :=
  {| version := "1.0.0";
     homeId := Some 3405691582%Z;
     dumpState := JObject [ ("nodes", JArray []) ];
     ControllerMessageHandler_handle := λ _, Resolve (JObject []);
     NodeMessageHandler_handle := λ _, Reject (ZWaveError 202 "Node 4 is dead");
     Object_prototype_call := sampleObjectPrototype |}.

Definition sampleClient : Client := Client.new openSocket.

(** A fresh registry that has accepted one connection. *)
Definition oneSession : System :=
  Clients.addSocket sampleEnv openSocket Clients.new.

(** Two sessions, the first one listening. *)
Definition twoSessions : System :=
  {| heap := [ {| receiveEvents := true; _outstandingPing := false;
                  socket := openSocket |};
               Client.new openSocket ];
     registry := {| clients := [0; 1]; pingInterval := Some 0;
                    eventForwarder := Some {| started := true |};
                    cleanupScheduled := false |};
     intervals := [0]; nextTimer := 1; timeouts := 0 |}.

Definition sampleEvent : Value :=
  JObject [ ("source", JString "node"); ("event", JString "wake up") ].

(** ** The rest of the sources *)

(** [driver/command.ts]: the commands of the driver group and their wire
    names. *)
Module DriverCommand.

Inductive t :=
| getConfig
| updateLogConfig
| getLogConfig
| enableStatistics
| disableStatistics
| isStatisticsEnabled
| startListeningLogs
| stopListeningLogs.

Definition value (d : t) : string :=
  match d with
  | getConfig => "driver.get_config"
  | updateLogConfig => "driver.update_log_config"
  | getLogConfig => "driver.get_log_config"
  | enableStatistics => "driver.enable_statistics"
  | disableStatistics => "driver.disable_statistics"
  | isStatisticsEnabled => "driver.is_statistics_enabled"
  | startListeningLogs => "driver.start_listening_logs"
  | stopListeningLogs => "driver.stop_listening_logs"
  end.

End DriverCommand.

(** The ["message"] listener run on a sequence of frames, each with the
    collaborators as they are when it arrives. *)
Fixpoint receiveFrames (c : Client) (frames : list (Env * option Value))
    : Client :=
  match frames with
  | [] => c
  | (env, parsed) :: rest =>
      receiveFrames (fst (Client.receiveMessage env parsed c)) rest
  end.

(** The registry's periodic probe as [checkAlive] would make it, answered
    by the peer: one round is a probe followed by its ["pong"]. *)
Fixpoint probeRounds (n : nat) (c : Client) : Client :=
  match n with
  | O => c
  | S k => probeRounds k (Client.onPong (Client.checkAlive c))
  end.

Definition isSendCall (call : SocketCall) : bool :=
  match call with CallSend _ => true | _ => false end.

Definition isCloseCall (call : SocketCall) : bool :=
  match call with CallClose => true | _ => false end.

Definition isPingCall (call : SocketCall) : bool :=
  match call with CallPing => true | _ => false end.

(** The [type] of an encoded envelope. *)
Definition frameType (frame : Value) : option string :=
  match field "type" frame with
  | Some (JString t) => Some t
  | _ => None
  end.

(** A [send] of an envelope of the given type. *)
Definition sendsType (type : string) (call : SocketCall) : bool :=
  match call with
  | CallSend frame =>
      match frameType frame with
      | Some t => String.eqb t type
      | None => false
      end
  | _ => false
  end.

(** How many calls of a record satisfy [p]. *)
Definition countCalls (p : SocketCall → bool) (cs : list SocketCall) : nat :=
  length (List.filter p cs).

Definition parsedFrames (frames : list (Env * option Value)) : nat :=
  length (List.filter (λ f, match snd f with Some _ => true | None => false end)
            frames).

(** The transport has closed the connection of a session. *)
Definition transportClosed (c : Client) : Client :=
  {| receiveEvents := receiveEvents c;
     _outstandingPing := _outstandingPing c;
     socket := Socket.closed (socket c) |}.

(** What a turn of the event loop other than an inbound frame can do to a
    session. *)
Inductive sessionMove (c : Client) : Client → Prop :=
| MovePong : sessionMove c (Client.onPong c)
| MoveClosed : sessionMove c (transportClosed c)
| MoveDisconnect : sessionMove c (Client.disconnect c)
| MoveEvent event :
    receiveEvents c && Client.isConnected c = true →
    sessionMove c (Client.sendEvent event c).

(** Every accepted connection comes with a socket nothing was called on. *)
Definition freshConnection (i : Input) : Prop :=
  match i with
  | Connection _ sock => calls sock = []
  | _ => True
  end.

(** The frame is the handshake: it parses to a message whose [command] is
    exactly ["start_listening"]. *)
Definition isHandshake (parsed : option Value) : bool :=
  match parsed with
  | Some msg =>
      match getProp "command" msg with
      | inr command => strictEqString command "start_listening"
      | inl _ => false
      end
  | None => false
  end.

(** The input is no handshake received on session [r]. *)
Definition noHandshake (r : nat) (i : Input) : Prop :=
  match i with
  | Message r' _ parsed => r' = r → isHandshake parsed = false
  | _ => True
  end.

(** A device whose controller group refuses with a failure of its own
    kind. *)
Definition refusingEnv : Env :=
  {| version := "1.0.0";
     homeId := None;
     dumpState := JObject [];
     ControllerMessageHandler_handle := λ _, Reject (BaseError "node_not_found");
     NodeMessageHandler_handle := λ _, Resolve JUndefined;
     Object_prototype_call := sampleObjectPrototype |}.

(** Two tracked sessions, the second with a socket the transport has
    closed. *)
Definition staleSystem : System :=
  {| heap := [ {| receiveEvents := true; _outstandingPing := false;
                  socket := openSocket |};
               {| receiveEvents := true; _outstandingPing := false;
                  socket := {| readyState := CLOSED; calls := [] |} |} ];
     registry := {| clients := [0; 1]; pingInterval := Some 0;
                    eventForwarder := Some {| started := true |};
                    cleanupScheduled := false |};
     intervals := [0]; nextTimer := 1; timeouts := 0 |}.

(** A run in which one client connects, sends a controller command and
    never the handshake, while two upstream events arrive. *)
Definition quietRun : list Input :=
  [ Connection sampleEnv openSocket;
    Upstream sampleEvent;
    Message 0 sampleEnv (Some (commandEnvelope "1" "controller.get_state"));
    Upstream sampleEvent ].

(** ** [outgoing_message.ts]: the declared envelopes

    Each interface as a predicate on an encoded frame: the properties it
    requires, with the literal or the kind of value it gives them.  The
    payload types of [result] are declared elsewhere, so of [result] only
    its presence is kept; [Omit<ErrorCode, "zwaveError">] accepts every
    string. *)
Module OutgoingMessages.

Definition isString (o : option Value) : Prop := ∃ s, o = Some (JString s).

Definition isNumber (o : option Value) : Prop := ∃ n, o = Some (JNumber n).

Definition OutgoingEvent (v : Value) : Prop :=
  (field "source" v = Some (JString "controller")
   ∨ field "source" v = Some (JString "node")
   ∨ field "source" v = Some (JString "driver"))
  ∧ isString (field "event" v).

Definition OutgoingVersionMessage (frame : Value) : Prop :=
  field "type" frame = Some (JString "version")
  ∧ isString (field "driverVersion" frame)
  ∧ isString (field "serverVersion" frame)
  ∧ (field "homeId" frame = None ∨ isNumber (field "homeId" frame))
  ∧ isNumber (field "minSchemaVersion" frame)
  ∧ isNumber (field "maxSchemaVersion" frame).

Definition OutgoingEventMessage (frame : Value) : Prop :=
  field "type" frame = Some (JString "event")
  ∧ ∃ event, field "event" frame = Some event ∧ OutgoingEvent event.

Definition OutgoingResultMessageError (frame : Value) : Prop :=
  field "type" frame = Some (JString "result")
  ∧ isString (field "messageId" frame)
  ∧ field "success" frame = Some (JBool false)
  ∧ isString (field "errorCode" frame).

Definition OutgoingResultMessageZWaveError (frame : Value) : Prop :=
  field "type" frame = Some (JString "result")
  ∧ isString (field "messageId" frame)
  ∧ field "success" frame = Some (JBool false)
  ∧ field "errorCode" frame = Some (JString ErrorCode.zwaveError)
  ∧ isNumber (field "zwaveErrorCode" frame)
  ∧ isString (field "zwaveErrorMessage" frame).

Definition OutgoingResultMessageSuccess (frame : Value) : Prop :=
  field "type" frame = Some (JString "result")
  ∧ isString (field "messageId" frame)
  ∧ field "success" frame = Some (JBool true)
  ∧ field "result" frame ≠ None.

Definition OutgoingMessage (frame : Value) : Prop :=
  OutgoingVersionMessage frame
  ∨ OutgoingEventMessage frame
  ∨ OutgoingResultMessageSuccess frame
  ∨ OutgoingResultMessageError frame
  ∨ OutgoingResultMessageZWaveError frame.

End OutgoingMessages.

(** ** class ZwavejsServer *)

(** The HTTP listener is a dependency; of it only whether it accepts
    connections is kept. *)
Record HttpServer := { listening : bool }.

(** The fields of the server object.  [sockets] is the registry the server
    refers to, with the timers it has set. *)
Record ZwavejsServer := {
  server : option HttpServer;
  wsServer : option unit;
  sockets : option System
}.

Module ZwavejsServer.

(** [new ZwavejsServer(driver, options)]. *)
Definition new : ZwavejsServer :=
  {| server := None; wsServer := None; sockets := None |}.

(** [start()], once ["listening"] has been emitted. *)
Definition start (z : ZwavejsServer) : ZwavejsServer :=
  {| server := Some {| listening := true |};
     wsServer := Some ();
     sockets := Some Clients.new |}.

(** What happens to the registry the server refers to; the ["connection"]
    listener is [this.sockets!.addSocket(socket)]. *)
Definition deliver (i : Input) (z : ZwavejsServer) : option ZwavejsServer :=
  s ← sockets z;
  s' ← step s i;
  Some {| server := server z; wsServer := wsServer z; sockets := Some s' |}.

Fixpoint deliverAll (inputs : list Input) (z : ZwavejsServer)
    : option ZwavejsServer :=
  match inputs with
  | [] => Some z
  | i :: rest => z' ← deliver i z; deliverAll rest z'
  end.

(** [destroy()], once ["close"] has been emitted. *)
Definition destroy (z : ZwavejsServer) : ZwavejsServer :=
  {| server := (λ _, {| listening := false |}) <$> server z;
     wsServer := wsServer z;
     sockets := Clients.disconnect <$> sockets z |}.

End ZwavejsServer.

(** ** The session: one inbound frame *)

Lemma getProp_defined key key' msg v :
  getProp key msg = inr v → ∃ w, getProp key' msg = inr w.
Proof. destruct msg; simpl; intros H; try discriminate; eauto. Qed.

(** A frame that does not parse: the connection is closed and nothing is
    sent. *)
Lemma receiveMessage_undecodable env c :
  Client.receiveMessage env None c = (Client.disconnect c, None)
  ∧ calls (socket (Client.disconnect c)) = calls (socket c) ++ [CallClose]
  ∧ Client.isConnected (Client.disconnect c) = false.
Proof.
  repeat split. unfold Client.isConnected, Socket.isOpen. simpl.
  destruct (readyState (socket c)); reflexivity.
Qed.

Lemma sendResultError_frame mid code c :
  ∃ frame,
    calls (socket (Client.sendResultError mid code c))
      = calls (socket c) ++ [CallSend frame]
    ∧ isResult frame
    ∧ field "success" frame = Some (JBool false)
    ∧ field "errorCode" frame = Some (JString code)
    ∧ field "messageId" frame
        = match mid with JUndefined => None | v => Some (JSON_stringify v) end
    ∧ field "result" frame = None
    ∧ field "command" frame = None
    ∧ field "zwaveErrorCode" frame = None
    ∧ field "zwaveErrorMessage" frame = None
    ∧ (∀ str, carries frame str →
              str = "result" ∨ str = code ∨ mid = JString str).
Proof.
  eexists. split; [reflexivity|]. unfold isResult, carries.
  destruct mid as [| |b|n|t|items|props]; simpl; repeat split;
    try reflexivity; intros str H;
    repeat (destruct H as [[= <-]|H]; auto); try contradiction.
Qed.

Lemma sendResultSuccess_frame mid result c :
  ∃ frame,
    calls (socket (Client.sendResultSuccess mid result c))
      = calls (socket c) ++ [CallSend frame]
    ∧ isResult frame
    ∧ field "success" frame = Some (JBool true)
    ∧ field "errorCode" frame = None
    ∧ field "messageId" frame
        = match mid with JUndefined => None | v => Some (JSON_stringify v) end
    ∧ field "result" frame
        = match result with JUndefined => None | v => Some (JSON_stringify v) end.
Proof.
  eexists. split; [reflexivity|]. unfold isResult.
  destruct mid, result; simpl; repeat split; reflexivity.
Qed.

Lemma disconnect_not_connected c :
  Client.isConnected (Client.disconnect c) = false.
Proof.
  unfold Client.isConnected, Socket.isOpen. simpl.
  destruct (readyState (socket c)); reflexivity.
Qed.

Lemma groupOf_start_listening cmd :
  groupOf cmd ≠ "start_listening" → String.eqb cmd "start_listening" = false.
Proof.
  intros H. destruct (String.eqb_spec cmd "start_listening") as [->|]; [|done].
  exfalso. apply H. reflexivity.
Qed.

(** What the [try] block does with a command that is a string other than
    ["start_listening"]. *)
Lemma dispatch_command env msg cmd c :
  getProp "command" msg = inr (JString cmd) →
  String.eqb cmd "start_listening" = false →
  ∃ mid, getProp "messageId" msg = inr mid ∧
    Client.dispatch env msg c =
      match instanceHandlers (groupOf cmd) with
      | Some h =>
          match callHandler env h msg with
          | Resolve result =>
              Client.Normal (Client.sendResultSuccess mid result c)
          | Reject err => Client.Throw err c
          end
      | None => Client.Throw (UnknownCommandError cmd) c
      end.
Proof.
  intros Hcmd Hne.
  destruct (getProp_defined "command" "messageId" msg _ Hcmd) as [mid Hmid].
  exists mid. split; [done|].
  unfold Client.dispatch, groupOf. rewrite Hcmd. cbn [strictEqString].
  rewrite Hne, Hmid. reflexivity.
Qed.

Lemma echoedMessageId_eq msg mid :
  getProp "messageId" msg = inr mid →
  echoedMessageId msg
  = match mid with JUndefined => None | v => Some (JSON_stringify v) end.
Proof. intros H. unfold echoedMessageId. rewrite H. by destruct mid. Qed.

(** The [catch] clause answers with one failure envelope. *)
Lemma handleError_replies msg mid err c :
  getProp "messageId" msg = inr mid →
  let code := default ErrorCode.unknownError (instanceofBaseError err) in
  ∃ frame,
    Client.handleError msg err c = (Client.sendResultError mid code c, None)
    ∧ calls (socket (Client.sendResultError mid code c))
        = calls (socket c) ++ [CallSend frame]
    ∧ isResult frame
    ∧ field "messageId" frame = echoedMessageId msg
    ∧ field "success" frame = Some (JBool false)
    ∧ field "errorCode" frame = Some (JString code)
    ∧ field "command" frame = None
    ∧ field "zwaveErrorCode" frame = None
    ∧ field "zwaveErrorMessage" frame = None
    ∧ (∀ str, carries frame str →
              str = "result" ∨ str = code ∨ mid = JString str).
Proof.
  intros Hmid code.
  destruct (sendResultError_frame mid code c)
    as (frame & Hcalls & Hres & Hsucc & Hcode & Hm & _ & Hcmd & Hz1 & Hz2 & Hcar).
  exists frame. rewrite (echoedMessageId_eq _ _ Hmid).
  unfold Client.handleError. rewrite Hmid.
  subst code. destruct (instanceofBaseError err); repeat split; done.
Qed.

(** Every frame that parses to something other than [null] is answered by
    exactly one result envelope that echoes its [messageId], and the
    connection is left as it was. *)
Lemma receiveMessage_one_result env msg c :
  msg ≠ JNull → msg ≠ JUndefined →
  repliesWith env msg c (λ c' _, _outstandingPing c' = _outstandingPing c).
Proof.
  intros Hnull Hundef.
  assert (∃ command mid, getProp "command" msg = inr command
                         ∧ getProp "messageId" msg = inr mid)
    as (command & mid & Hcmd & Hmid).
  { destruct msg; try done; simpl; eauto. }
  assert (Herr : ∀ err,
    match Client.handleError msg err c with
    | (c', None) => ∃ frame,
        calls (socket c') = calls (socket c) ++ [CallSend frame]
        ∧ readyState (socket c') = readyState (socket c)
        ∧ isResult frame
        ∧ field "messageId" frame = echoedMessageId msg
        ∧ _outstandingPing c' = _outstandingPing c
    | _ => False
    end).
  { intros err.
    destruct (handleError_replies msg mid err c Hmid)
      as (frame & -> & Hcalls & Hres & Hm & _).
    exists frame. repeat split; done. }
  assert (Hfin : ∀ err, Client.dispatch env msg c = Client.Throw err c →
                 repliesWith env msg c
                   (λ c' _, _outstandingPing c' = _outstandingPing c)).
  { intros err Hd. unfold repliesWith, Client.receiveMessage. rewrite Hd.
    specialize (Herr err).
    destruct (Client.handleError msg err c) as [c' [rej|]]; [done|].
    destruct Herr as (frame & H1 & H2 & H3 & H4 & H5).
    exists c', frame. repeat split; done. }
  destruct (strictEqString command "start_listening") eqn:Hstart.
  - unfold repliesWith, Client.receiveMessage, Client.dispatch.
    rewrite Hcmd, Hstart, Hmid.
    destruct (sendResultSuccess_frame mid (JObject [("state", dumpState env)]) c)
      as (frame & Hcalls & Hres & _ & _ & Hm & _).
    eexists _, frame. rewrite (echoedMessageId_eq _ _ Hmid).
    repeat split; done.
  - destruct command as [| |b|n|cmd|items|props];
      try (apply (Hfin TypeError); unfold Client.dispatch; rewrite Hcmd;
           reflexivity).
    destruct (dispatch_command env msg cmd c Hcmd Hstart) as (mid' & Hmid' & Hd).
    assert (mid' = mid) as -> by congruence.
    destruct (instanceHandlers (groupOf cmd)) as [h|];
      [|by apply (Hfin (UnknownCommandError cmd))].
    destruct (callHandler env h msg) as [result|err];
      [|by apply (Hfin err)].
    unfold repliesWith, Client.receiveMessage. rewrite Hd.
    destruct (sendResultSuccess_frame mid result c)
      as (frame & Hcalls & Hres & _ & _ & Hm & _).
    eexists _, frame. rewrite (echoedMessageId_eq _ _ Hmid).
    repeat split; done.
Qed.

(** C1, at the frame [null]: [JSON.parse] accepts it, reading [msg.command]
    throws inside the [try] block, and reading [msg.messageId] throws again
    inside the [catch] clause.  The promise of [receiveMessage] is rejected:
    no result envelope is sent and the connection is not closed, so the
    frame decodes and yet has no reply. *)
Theorem receiveMessage_null_frame env c :
  Client.receiveMessage env (Some JNull) c = (c, Some TypeError).
Proof. reflexivity. Qed.

(** A thrown value reaches the [catch] clause with the session untouched,
    and is answered there. *)
Lemma thrown_replies env msg cmd err c :
  getProp "command" msg = inr (JString cmd) →
  Client.dispatch env msg c = Client.Throw err c →
  repliesWith env msg c (λ c' frame,
    receiveEvents c' = receiveEvents c
    ∧ field "success" frame = Some (JBool false)
    ∧ field "errorCode" frame
        = Some (JString (default ErrorCode.unknownError (instanceofBaseError err)))
    ∧ field "command" frame = None
    ∧ field "zwaveErrorCode" frame = None
    ∧ field "zwaveErrorMessage" frame = None
    ∧ (∀ str, carries frame str →
         str = "result"
         ∨ str = default ErrorCode.unknownError (instanceofBaseError err)
         ∨ getProp "messageId" msg = inr (JString str))).
Proof.
  intros Hcmd Hd.
  destruct (getProp_defined "command" "messageId" msg _ Hcmd) as [mid Hmid].
  destruct (handleError_replies msg mid err c Hmid)
    as (frame & Hh & Hcalls & Hres & Hm & Hs & Hc & Hk & Hz1 & Hz2 & Hcar).
  unfold repliesWith, Client.receiveMessage. rewrite Hd, Hh.
  eexists _, frame. repeat split; try done.
  intros str Hstr. destruct (Hcar str Hstr) as [?|[?| ->]]; auto.
Qed.

(** C5: a [start_listening] command is answered by a success result whose
    payload is the snapshot of the domain state, and sets [receiveEvents];
    a second one, on whatever session the first one left, is answered the
    same way and [receiveEvents] is still true. *)
Theorem start_listening_idempotent env1 env2 msg1 msg2 c :
  getProp "command" msg1 = inr (JString "start_listening") →
  getProp "command" msg2 = inr (JString "start_listening") →
  repliesWith env1 msg1 c (λ c1 frame1,
    receiveEvents c1 = true
    ∧ field "success" frame1 = Some (JBool true)
    ∧ field "result" frame1 = Some (snapshot env1)
    ∧ repliesWith env2 msg2 c1 (λ c2 frame2,
        receiveEvents c2 = true
        ∧ field "success" frame2 = Some (JBool true)
        ∧ field "result" frame2 = Some (snapshot env2)
        ∧ calls (socket c2)
            = calls (socket c) ++ [CallSend frame1; CallSend frame2])).
Proof.
  assert (Hone : ∀ env msg c0,
    getProp "command" msg = inr (JString "start_listening") →
    ∀ Q : Client → Value → Prop,
    (∀ c' frame,
       receiveEvents c' = true →
       field "success" frame = Some (JBool true) →
       field "result" frame = Some (snapshot env) →
       calls (socket c') = calls (socket c0) ++ [CallSend frame] →
       Q c' frame) →
    repliesWith env msg c0 Q).
  { intros env msg c0 Hcmd Q HQ.
    destruct (getProp_defined "command" "messageId" msg _ Hcmd) as [mid Hmid].
    unfold repliesWith, Client.receiveMessage, Client.dispatch.
    rewrite Hcmd. cbn [strictEqString String.eqb Ascii.eqb Bool.eqb].
    rewrite Hmid.
    destruct (sendResultSuccess_frame mid (JObject [("state", dumpState env)]) c0)
      as (frame & Hcalls & Hres & Hs & _ & Hm & Hr).
    eexists _, frame. rewrite (echoedMessageId_eq _ _ Hmid).
    repeat split; try done. apply HQ; done. }
  intros H1 H2. apply Hone; [done|]. intros c1 frame1 Hr1 Hs1 Hp1 Hc1.
  repeat split; try done.
  apply Hone; [done|]. intros c2 frame2 Hr2 Hs2 Hp2 Hc2.
  repeat split; try done.
  rewrite Hc2, Hc1, <- app_assoc. reflexivity.
Qed.

Lemma start_listening_idempotent_witness :
  repliesWith sampleEnv (commandEnvelope "1" "start_listening") sampleClient
    (λ c1 frame1,
      receiveEvents c1 = true
      ∧ field "success" frame1 = Some (JBool true)
      ∧ field "result" frame1 = Some (snapshot sampleEnv)
      ∧ repliesWith sampleEnv (commandEnvelope "2" "start_listening") c1
          (λ c2 frame2,
            receiveEvents c2 = true
            ∧ field "success" frame2 = Some (JBool true)
            ∧ field "result" frame2 = Some (snapshot sampleEnv)
            ∧ calls (socket c2)
                = calls (socket sampleClient)
                  ++ [CallSend frame1; CallSend frame2])).
Proof.
  apply (start_listening_idempotent sampleEnv sampleEnv
           (commandEnvelope "1" "start_listening")
           (commandEnvelope "2" "start_listening") sampleClient);
    reflexivity.
Defined.

Lemma instanceHandlers_absent group :
  registered group = None → ¬ In group Object_prototype →
  instanceHandlers group = None.
Proof.
  intros Hreg Hproto. unfold instanceHandlers. rewrite Hreg.
  destruct (existsb (String.eqb group) Object_prototype) eqn:Hex; [|done].
  apply existsb_exists in Hex as (name & Hin & Heq).
  apply String.eqb_eq in Heq as ->. contradiction.
Qed.

(** C6, as stated, fails on the command ["bogus.action"]: its group has no
    registered handler and the reply is a failure with code
    [unknownCommand], but no property of the envelope sent holds the command
    string. *)
Lemma unknown_group_reply_omits_command :
  registered (groupOf "bogus.action") = None
  ∧ ¬ ∃ frame,
        calls (socket (fst (Client.receiveMessage sampleEnv
                              (Some (commandEnvelope "1" "bogus.action"))
                              sampleClient)))
          = [CallSend frame]
        ∧ field "errorCode" frame = Some (JString ErrorCode.unknownCommand)
        ∧ carries frame "bogus.action".
Proof.
  split; [reflexivity|].
  intros (frame & Hcalls & _ & Hcar).
  injection Hcalls as <-.
  simpl in Hcar.
  repeat (destruct Hcar as [Hcar|Hcar]; [discriminate Hcar|]).
  exact Hcar.
Qed.

(** C6, amended: a command other than ["start_listening"] whose group is
    neither a registered handler nor a name inherited from
    [Object.prototype] raises an [UnknownCommandError] holding the full
    command string, and is answered by exactly one failure envelope with
    code [unknownCommand] and the message's [messageId]; the properties of
    the envelope are exactly [type], [success], [messageId] (left out when
    the message has none) and [errorCode], so it has no property for the
    command, and the strings it holds are exactly ["result"], the code and
    the [messageId] when that is a string; the connection is not closed. *)
Theorem unknown_group_reply env msg cmd c :
  getProp "command" msg = inr (JString cmd) →
  cmd ≠ "start_listening" →
  registered (groupOf cmd) = None →
  ¬ In (groupOf cmd) Object_prototype →
  Client.dispatch env msg c = Client.Throw (UnknownCommandError cmd) c
  ∧ repliesWith env msg c (λ c' frame,
      receiveEvents c' = receiveEvents c
      ∧ field "success" frame = Some (JBool false)
      ∧ field "errorCode" frame = Some (JString ErrorCode.unknownCommand)
      ∧ keys frame
        = [ "type"; "success" ]
          ++ match echoedMessageId msg with
             | Some _ => [ "messageId" ]
             | None => []
             end
          ++ [ "errorCode" ]
      ∧ field "command" frame = None
      ∧ (∀ str, carries frame str
           ↔ str = "result" ∨ str = ErrorCode.unknownCommand
             ∨ getProp "messageId" msg = inr (JString str))).
Proof.
  intros Hcmd Hne Hreg Hproto.
  assert (Hd : Client.dispatch env msg c
               = Client.Throw (UnknownCommandError cmd) c).
  { destruct (dispatch_command env msg cmd c Hcmd) as (mid & _ & ->).
    - by apply String.eqb_neq.
    - by rewrite instanceHandlers_absent. }
  split; [exact Hd|].
  destruct (getProp_defined "command" "messageId" msg _ Hcmd) as [mid Hmid].
  unfold repliesWith, Client.receiveMessage. rewrite Hd.
  unfold Client.handleError. rewrite Hmid. cbn [instanceofBaseError].
  eexists _, _. split; [reflexivity|]. split; [reflexivity|].
  split; [reflexivity|]. rewrite (echoedMessageId_eq _ _ Hmid).
  unfold isResult, carries.
  destruct mid as [| |b|n|t|items|props]; simpl;
    (split; [reflexivity|]); (split; [reflexivity|]);
    (split; [reflexivity|]); (split; [reflexivity|]);
    (split; [reflexivity|]); (split; [reflexivity|]);
    (split; [reflexivity|]);
    intros str; (split; [intros H|intros [->|[->|H]]]);
    try (repeat (destruct H as [H|H]; try discriminate H);
         try contradiction; injection H as <-; auto; fail);
    try (injection H as H; discriminate H);
    try (left; reflexivity);
    try (right; right; left; reflexivity);
    try (right; right; right; left; reflexivity).
Qed.

Lemma unknown_group_reply_witness :
  Client.dispatch sampleEnv (commandEnvelope "1" "bogus.action") sampleClient
  = Client.Throw (UnknownCommandError "bogus.action") sampleClient.
Proof.
  apply (unknown_group_reply sampleEnv (commandEnvelope "1" "bogus.action")
           "bogus.action" sampleClient).
  - reflexivity.
  - discriminate.
  - reflexivity.
  - simpl. intros H.
    repeat (destruct H as [H|H]; [discriminate H|]). exact H.
Defined.

(** X22: a group that names a member of [Object.prototype] passes the
    presence test of the handler table although nothing is registered for
    it: the inherited member is called with the message and no
    [UnknownCommandError] is raised by the session. *)
Lemma inherited_group_dispatched env msg cmd c :
  getProp "command" msg = inr (JString cmd) →
  cmd ≠ "start_listening" →
  registered (groupOf cmd) = None →
  In (groupOf cmd) Object_prototype →
  ∃ mid, getProp "messageId" msg = inr mid ∧
    Client.dispatch env msg c =
      match Object_prototype_call env (groupOf cmd) msg with
      | Resolve result => Client.Normal (Client.sendResultSuccess mid result c)
      | Reject err => Client.Throw err c
      end.
Proof.
  intros Hcmd Hne Hreg Hin.
  destruct (dispatch_command env msg cmd c Hcmd) as (mid & Hmid & ->).
  { by apply String.eqb_neq. }
  exists mid. split; [done|]. unfold instanceHandlers. rewrite Hreg.
  assert (existsb (String.eqb (groupOf cmd)) Object_prototype = true) as ->.
  { apply existsb_exists. exists (groupOf cmd). split; [done|].
    apply String.eqb_refl. }
  reflexivity.
Qed.

Example inherited_group_toString :
  registered (groupOf "toString.x") = None
  ∧ Client.receiveMessage sampleEnv (Some (commandEnvelope "1" "toString.x"))
      sampleClient
    = (Client.sendResultSuccess (JString "1") (JString "[object Object]")
         sampleClient, None).
Proof. split; reflexivity. Qed.

(** C10: a command whose group is ["driver"] reaches the registered driver
    handler, which throws a plain [Error]; the session answers with exactly
    one failure envelope whose code is [unknownError], which is not
    [unknownCommand], and the connection stays open. *)
Theorem driver_group_reply env msg cmd c :
  getProp "command" msg = inr (JString cmd) →
  groupOf cmd = Instance.driver →
  Client.dispatch env msg c
    = Client.Throw (Error "Driver handler not implemented.") c
  ∧ ErrorCode.unknownError ≠ ErrorCode.unknownCommand
  ∧ repliesWith env msg c (λ c' frame,
      receiveEvents c' = receiveEvents c
      ∧ field "success" frame = Some (JBool false)
      ∧ field "errorCode" frame = Some (JString ErrorCode.unknownError)).
Proof.
  intros Hcmd Hgroup.
  assert (Hd : Client.dispatch env msg c
               = Client.Throw (Error "Driver handler not implemented.") c).
  { destruct (dispatch_command env msg cmd c Hcmd) as (mid & _ & ->).
    - apply groupOf_start_listening. rewrite Hgroup. discriminate.
    - rewrite Hgroup. reflexivity. }
  split; [exact Hd|]. split; [discriminate|].
  destruct (thrown_replies env msg cmd _ c Hcmd Hd)
    as (c' & frame & Hr & Hcalls & Hst & Hres & Hm & He & Hs & Hc & _).
  exists c', frame. repeat split; done.
Qed.

Lemma driver_group_reply_witness :
  repliesWith sampleEnv (commandEnvelope "7" "driver.get_config") sampleClient
    (λ c' frame,
      receiveEvents c' = receiveEvents sampleClient
      ∧ field "success" frame = Some (JBool false)
      ∧ field "errorCode" frame = Some (JString ErrorCode.unknownError)).
Proof.
  apply (driver_group_reply sampleEnv (commandEnvelope "7" "driver.get_config")
           "driver.get_config" sampleClient); reflexivity.
Defined.

(** C4, where it fails: when the handler of a command fails, whatever it
    throws, the one envelope sent has neither a [zwaveErrorCode] nor a
    [zwaveErrorMessage] property; an error of the device library is not
    recognised by the [catch] clause (it is no [BaseError]) and is answered
    with code [unknownError]. *)
Theorem zwave_failure_reply env msg cmd h err c :
  getProp "command" msg = inr (JString cmd) →
  cmd ≠ "start_listening" →
  instanceHandlers (groupOf cmd) = Some h →
  callHandler env h msg = Reject err →
  repliesWith env msg c (λ c' frame,
    field "success" frame = Some (JBool false)
    ∧ field "zwaveErrorCode" frame = None
    ∧ field "zwaveErrorMessage" frame = None
    ∧ (∀ code message, err = ZWaveError code message →
         field "errorCode" frame = Some (JString ErrorCode.unknownError))).
Proof.
  intros Hcmd Hne Hh Hcall.
  assert (Hd : Client.dispatch env msg c = Client.Throw err c).
  { destruct (dispatch_command env msg cmd c Hcmd) as (mid & _ & ->).
    - by apply String.eqb_neq.
    - by rewrite Hh, Hcall. }
  destruct (thrown_replies env msg cmd _ c Hcmd Hd)
    as (c' & frame & Hr & Hcalls & Hst & Hres & Hm & He & Hs & Hc & Hk & Hz1 & Hz2 & _).
  exists c', frame. repeat split; try done.
  intros code message ->. exact Hc.
Qed.

Lemma zwave_failure_reply_witness :
  repliesWith sampleEnv (commandEnvelope "9" "node.set_value") sampleClient
    (λ c' frame,
      field "success" frame = Some (JBool false)
      ∧ field "zwaveErrorCode" frame = None
      ∧ field "zwaveErrorMessage" frame = None
      ∧ (∀ code message,
           ZWaveError 202 "Node 4 is dead" = ZWaveError code message →
           field "errorCode" frame = Some (JString ErrorCode.unknownError))).
Proof.
  apply (zwave_failure_reply sampleEnv (commandEnvelope "9" "node.set_value")
           "node.set_value" NodeHandler (ZWaveError 202 "Node 4 is dead")
           sampleClient);
    try reflexivity.
  discriminate.
Defined.

(** ** The registry *)

Lemma isConnectedAt_insert (h : list Client) r r' c c' :
  h !! r = Some c → Client.isConnected c = Client.isConnected c' →
  Clients.isConnectedAt (<[r := c']> h) r' = Clients.isConnectedAt h r'.
Proof.
  intros Hr Hsame. unfold Clients.isConnectedAt.
  destruct (decide (r = r')) as [<-|Hne].
  - rewrite list_lookup_insert_eq by (by eapply lookup_lt_Some).
    by rewrite Hr.
  - by rewrite list_lookup_insert_ne.
Qed.

Lemma filter_NoDup (f : nat → bool) (l : list nat) :
  NoDup l → NoDup (List.filter f l).
Proof.
  intros H. apply NoDup_ListNoDup, List.NoDup_filter.
  by apply NoDup_ListNoDup.
Qed.

Lemma filter_elem_of (f : nat → bool) (l : list nat) r :
  r ∈ List.filter f l ↔ r ∈ l ∧ f r = true.
Proof. rewrite !list_elem_of_In. apply filter_In. Qed.

(** The sweep keeps the references to connected sessions, in order, calls
    [disconnect] on the others, and touches no connected session. *)
Lemma sweepLoop_spec refs (h : list Client) acc :
  let '(h', newClients) := Clients.sweepLoop refs h acc in
  newClients = acc ++ List.filter (Clients.isConnectedAt h) refs
  ∧ length h' = length h
  ∧ (∀ r, Clients.isConnectedAt h' r = Clients.isConnectedAt h r)
  ∧ (∀ r c, h !! r = Some c → Client.isConnected c = true → h' !! r = Some c).
Proof.
  revert h acc. induction refs as [|a refs IH]; intros h acc; simpl.
  { rewrite app_nil_r. done. }
  unfold Clients.isConnectedAt at 1.
  destruct (h !! a) as [c|] eqn:Ha.
  - destruct (Client.isConnected c) eqn:Hc.
    + specialize (IH h (acc ++ [a])).
      destruct (Clients.sweepLoop refs h (acc ++ [a])) as [h' new].
      destruct IH as (-> & ? & ? & ?). rewrite <- app_assoc. done.
    + specialize (IH (<[a := Client.disconnect c]> h) acc).
      destruct (Clients.sweepLoop refs (<[a := Client.disconnect c]> h) acc)
        as [h' new].
      destruct IH as (-> & Hlen & Hconn & Hkeep).
      assert (Hsame : ∀ r, Clients.isConnectedAt (<[a := Client.disconnect c]> h) r
                           = Clients.isConnectedAt h r).
      { intros r. apply (isConnectedAt_insert h a r c); [done|].
        by rewrite disconnect_not_connected. }
      repeat split.
      * f_equal. apply filter_ext. exact Hsame.
      * by rewrite Hlen, length_insert.
      * intros r. by rewrite Hconn.
      * intros r c0 Hr Hc0. apply Hkeep; [|done].
        rewrite list_lookup_insert_ne; [done|]. congruence.
  - apply IH.
Qed.

(** C3, where it fails: the periodic sweep never calls [checkAlive].  A
    tracked session that is connected when the interval fires is kept and
    left exactly as it was, whatever its outstanding-ping flag: it is not
    disconnected when the flag is set, and it is sent no probe and its flag
    is not set when the flag is clear. *)
Theorem sweep_skips_checkAlive s r c :
  r ∈ clients (registry s) →
  heap s !! r = Some c →
  Client.isConnected c = true →
  heap (Clients.sweep s) !! r = Some c
  ∧ r ∈ clients (registry (Clients.sweep s))
  ∧ c ≠ Client.checkAlive c.
Proof.
  intros Hin Hr Hc. unfold Clients.sweep.
  pose proof (sweepLoop_spec (clients (registry s)) (heap s) []) as Hspec.
  destruct (Clients.sweepLoop (clients (registry s)) (heap s) [])
    as [h' new]. destruct Hspec as (-> & _ & _ & Hkeep). simpl.
  split; [by apply Hkeep|]. split.
  - apply filter_elem_of. split; [done|].
    unfold Clients.isConnectedAt. by rewrite Hr.
  - unfold Client.checkAlive. destruct c as [ev ping sock]. simpl.
    destruct ping.
    + intros [= Hs]. apply (f_equal (λ x, length (calls x))) in Hs.
      simpl in Hs. rewrite length_app in Hs. simpl in Hs. lia.
    + discriminate.
Qed.

Lemma sweep_skips_checkAlive_witness :
  run Clients.new [Connection sampleEnv openSocket; IntervalFires 0]
  = Some (Clients.sweep oneSession)
  ∧ (heap (Clients.sweep oneSession) !! 0
     = Some (Client.sendVersion sampleEnv (Client.new openSocket))
     ∧ 0 ∈ clients (registry (Clients.sweep oneSession))
     ∧ Client.sendVersion sampleEnv (Client.new openSocket)
       ≠ Client.checkAlive
           (Client.sendVersion sampleEnv (Client.new openSocket))).
Proof.
  split; [reflexivity|].
  apply (sweep_skips_checkAlive oneSession 0
           (Client.sendVersion sampleEnv (Client.new openSocket))).
  - vm_compute. apply list_elem_of_here.
  - reflexivity.
  - reflexivity.
Defined.

(** What the loop of the fan-out leaves in the heap. *)
Lemma fanOutLoop_lookup event refs (h : list Client) r :
  NoDup refs →
  Clients.fanOutLoop event refs h !! r =
    if decide (r ∈ refs)
    then (λ c, if receiveEvents c && Client.isConnected c
               then Client.sendEvent event c else c) <$> h !! r
    else h !! r.
Proof.
  intros Hnd. revert h. induction Hnd as [|a refs Ha Hnd IH]; intros h.
  { simpl. destruct (decide (r ∈ [])) as [H|]; [|done].
    by apply not_elem_of_nil in H. }
  simpl.
  assert (Hstep : ∀ h' : list Client,
            (if decide (r ∈ refs) then
               (λ c, if receiveEvents c && Client.isConnected c
                     then Client.sendEvent event c else c) <$> h' !! r
             else h' !! r)
            = if decide (r = a) then h' !! r
              else if decide (r ∈ a :: refs) then
                (λ c, if receiveEvents c && Client.isConnected c
                      then Client.sendEvent event c else c) <$> h' !! r
              else h' !! r).
  { intros h'. destruct (decide (r = a)) as [->|Hne].
    - by rewrite decide_False.
    - destruct (decide (r ∈ refs)) as [Hin|Hin].
      + rewrite decide_True; [done|]. by apply list_elem_of_further.
      + rewrite decide_False; [done|].
        intros [?|?]%elem_of_cons; done. }
  destruct (h !! a) as [c|] eqn:Hc.
  - destruct (receiveEvents c && Client.isConnected c) eqn:Hflags.
    + rewrite IH, Hstep. destruct (decide (r = a)) as [->|Hne].
      * rewrite list_lookup_insert_eq by (by eapply lookup_lt_Some).
        rewrite decide_True by apply list_elem_of_here.
        rewrite Hc. simpl. by rewrite Hflags.
      * by rewrite list_lookup_insert_ne.
    + rewrite IH, Hstep. destruct (decide (r = a)) as [->|Hne]; [|done].
      rewrite decide_True by apply list_elem_of_here.
      rewrite Hc. simpl. by rewrite Hflags.
  - rewrite IH, Hstep. destruct (decide (r = a)) as [->|Hne]; [|done].
    rewrite decide_True by apply list_elem_of_here. by rewrite Hc.
Qed.

Lemma length_fanOutLoop event refs (h : list Client) :
  length (Clients.fanOutLoop event refs h) = length h.
Proof.
  revert h. induction refs as [|a refs IH]; intros h; simpl; [done|].
  destruct (h !! a) as [c|]; [|apply IH].
  destruct (receiveEvents c && Client.isConnected c); [|apply IH].
  by rewrite IH, length_insert.
Qed.

Lemma eventEnvelope_fields event :
  field "type" (eventEnvelope event) = Some (JString "event")
  ∧ field "event" (eventEnvelope event)
    = match event with JUndefined => None | v => Some (JSON_stringify v) end
  ∧ field "messageId" (eventEnvelope event) = None.
Proof. by destruct event. Qed.

(** C2: when the Event Forwarder delivers an upstream event, a session
    tracked by the registry is sent the event envelope, once and as its
    only new transport call, if and only if its [receiveEvents] flag is set
    and its transport is connected; otherwise nothing is sent to it. *)
Theorem fanOut_iff event s s' r c :
  step s (Upstream event) = Some s' →
  NoDup (clients (registry s)) →
  r ∈ clients (registry s) →
  heap s !! r = Some c →
  ∃ c', heap s' !! r = Some c'
    ∧ (calls (socket c') = calls (socket c) ++ [CallSend (eventEnvelope event)]
       ↔ receiveEvents c = true ∧ Client.isConnected c = true)
    ∧ (calls (socket c') = calls (socket c)
       ∨ calls (socket c') = calls (socket c) ++ [CallSend (eventEnvelope event)]).
Proof.
  intros Hstep Hnd Hin Hr.
  assert (s' = Clients.fanOut event s) as ->.
  { unfold step in Hstep.
    destruct (eventForwarder (registry s)) as [[[|]]|]; simpl in Hstep;
      congruence. }
  unfold Clients.fanOut. simpl.
  rewrite fanOutLoop_lookup by done. rewrite decide_True by done.
  rewrite Hr. simpl. eexists. split; [reflexivity|].
  destruct (receiveEvents c) eqn:Hev, (Client.isConnected c) eqn:Hconn; simpl.
  1: { split; [|by right]. split; [done|]. intros _. reflexivity. }
  all: split; [|by left]; split; [|intros []; done];
    intros Heq; apply (f_equal length) in Heq; rewrite length_app in Heq;
    simpl in Heq; lia.
Qed.

Lemma fanOut_iff_witness :
  ∃ c', heap (Clients.fanOut sampleEvent twoSessions) !! 0 = Some c'
    ∧ (calls (socket c') = [] ++ [CallSend (eventEnvelope sampleEvent)]
       ↔ true = true ∧ true = true)
    ∧ (calls (socket c') = []
       ∨ calls (socket c') = [] ++ [CallSend (eventEnvelope sampleEvent)]).
Proof.
  apply (fanOut_iff sampleEvent twoSessions
           (Clients.fanOut sampleEvent twoSessions) 0
           {| receiveEvents := true; _outstandingPing := false;
              socket := openSocket |}).
  - reflexivity.
  - vm_compute. apply NoDup_cons. split.
    + intros H%list_elem_of_singleton. discriminate H.
    + apply NoDup_singleton.
  - vm_compute. apply list_elem_of_here.
  - reflexivity.
Defined.

(** C7, where it fails: on accept the new session is sent exactly one
    envelope, of type ["version"], tied to no request and holding
    [driverVersion], [serverVersion] and (when the controller has one)
    [homeId]; it holds neither [minSchemaVersion] nor [maxSchemaVersion],
    both required by [OutgoingVersionMessage]. *)
Theorem addSocket_version env sock s :
  ∃ c' frame,
    heap (Clients.addSocket env sock s) !! length (heap s) = Some c'
    ∧ clients (registry (Clients.addSocket env sock s))
        = clients (registry s) ++ [length (heap s)]
    ∧ calls (socket c') = calls sock ++ [CallSend frame]
    ∧ field "type" frame = Some (JString "version")
    ∧ field "messageId" frame = None
    ∧ field "driverVersion" frame = Some (JString "TBD")
    ∧ field "serverVersion" frame = Some (JString (version env))
    ∧ field "homeId" frame = JNumber <$> homeId env
    ∧ field "minSchemaVersion" frame = None
    ∧ field "maxSchemaVersion" frame = None.
Proof.
  eexists _, _. split.
  { unfold Clients.addSocket. simpl. apply list_lookup_middle. reflexivity. }
  split; [reflexivity|]. split; [reflexivity|].
  destruct (homeId env); simpl; repeat split; reflexivity.
Qed.

Lemma disconnectAll_lookup refs (h : list Client) r :
  NoDup refs →
  Clients.disconnectAll refs h !! r =
    if decide (r ∈ refs) then Client.disconnect <$> h !! r else h !! r.
Proof.
  intros Hnd. revert h. induction Hnd as [|a refs Ha Hnd IH]; intros h.
  { simpl. destruct (decide (r ∈ [])) as [H|]; [|done].
    by apply not_elem_of_nil in H. }
  simpl. rewrite IH. destruct (decide (r = a)) as [->|Hne].
  - rewrite decide_False by done.
    rewrite decide_True by apply list_elem_of_here.
    rewrite list_lookup_alter. by rewrite decide_True.
  - rewrite list_lookup_alter_ne by done.
    destruct (decide (r ∈ refs)) as [Hin|Hin].
    + rewrite decide_True; [done|]. by apply list_elem_of_further.
    + rewrite decide_False; [done|]. intros [?|?]%elem_of_cons; done.
Qed.

Lemma length_disconnectAll refs (h : list Client) :
  length (Clients.disconnectAll refs h) = length h.
Proof.
  revert h. induction refs as [|a refs IH]; intros h; simpl; [done|].
  by rewrite IH, length_alter.
Qed.

Lemma clearInterval_own handle : Timers.clearInterval handle [handle] = [].
Proof. unfold Timers.clearInterval. simpl. by rewrite Nat.eqb_refl. Qed.

(** C8: shutting the registry down cancels the sweep timer (no interval is
    left running, so no sweep can fire), calls [disconnect] on every tracked
    session, which leaves none of them connected, and empties the session
    set, so that an upstream event delivered afterwards is sent to nobody;
    shutting down again changes nothing. *)
Theorem shutdown_idempotent s :
  consistent s →
  let s' := Clients.disconnect s in
  pingInterval (registry s') = None
  ∧ intervals s' = []
  ∧ (∀ handle, step s' (IntervalFires handle) = None)
  ∧ (∀ r, r ∈ clients (registry s) →
       ∃ c, heap s !! r = Some c
            ∧ heap s' !! r = Some (Client.disconnect c)
            ∧ calls (socket (Client.disconnect c))
                = calls (socket c) ++ [CallClose]
            ∧ Client.isConnected (Client.disconnect c) = false)
  ∧ clients (registry s') = []
  ∧ (∀ event, Clients.fanOut event s' = s')
  ∧ Clients.disconnect s' = s'.
Proof.
  intros [Hnd Hbound Hint Hclean] s'.
  assert (Hnone : intervals s' = []).
  { subst s'. simpl. rewrite Hint.
    destruct (pingInterval (registry s)); [apply clearInterval_own|done]. }
  split; [done|]. split; [done|]. split.
  { intros handle. unfold step. by rewrite Hnone. }
  split.
  { intros r Hin.
    rewrite Forall_forall in Hbound. apply Hbound in Hin as Hlt.
    apply lookup_lt_is_Some_2 in Hlt as [c Hc]. exists c.
    split; [done|]. split.
    - subst s'. simpl. rewrite disconnectAll_lookup by done.
      rewrite decide_True by done. by rewrite Hc.
    - split; [reflexivity|apply disconnect_not_connected]. }
  repeat split.
Qed.

Lemma shutdown_idempotent_witness :
  Clients.disconnect (Clients.disconnect twoSessions)
  = Clients.disconnect twoSessions.
Proof.
  apply (shutdown_idempotent twoSessions).
  split.
  - vm_compute. apply NoDup_cons. split.
    + intros H%list_elem_of_singleton. discriminate H.
    + apply NoDup_singleton.
  - vm_compute. repeat constructor.
  - reflexivity.
  - reflexivity.
Defined.

(** Scheduling a cleanup while one is pending does nothing. *)
Lemma scheduleClientCleanup_pending s :
  cleanupScheduled (registry s) = true → Clients.scheduleClientCleanup s = s.
Proof. intros H. unfold Clients.scheduleClientCleanup. by rewrite H. Qed.

Lemma scheduleClientCleanup_spec s :
  let s' := Clients.scheduleClientCleanup s in
  heap s' = heap s
  ∧ clients (registry s') = clients (registry s)
  ∧ pingInterval (registry s') = pingInterval (registry s)
  ∧ intervals s' = intervals s
  ∧ cleanupScheduled (registry s') = true
  ∧ (timeouts s = (if cleanupScheduled (registry s) then 1 else 0) →
     timeouts s' = 1).
Proof.
  unfold Clients.scheduleClientCleanup.
  destruct (cleanupScheduled (registry s)) eqn:H; simpl; repeat split;
    try done.
  intros ->. done.
Qed.

(** One close notification: the transport has closed the socket of [r], the
    listener schedules the cleanup, and the session set is not touched. *)
Lemma socketClosed_step s r c :
  heap s !! r = Some c →
  timeouts s = (if cleanupScheduled (registry s) then 1 else 0) →
  ∃ s', step s (SocketClosed r) = Some s'
    ∧ length (heap s') = length (heap s)
    ∧ clients (registry s') = clients (registry s)
    ∧ cleanupScheduled (registry s') = true
    ∧ timeouts s' = 1
    ∧ Clients.isConnectedAt (heap s') r = false
    ∧ (∀ r', Clients.isConnectedAt (heap s) r' = false →
             Clients.isConnectedAt (heap s') r' = false).
Proof.
  intros Hr HJ. unfold step. rewrite Hr. simpl. eexists. split; [reflexivity|].
  match goal with
  | |- context [Clients.scheduleClientCleanup ?t] =>
      destruct (scheduleClientCleanup_spec t) as (Hh & Hc & _ & _ & Hf & Ht)
  end.
  rewrite Hh, Hc, Hf. simpl.
  assert (Hat : ∀ r', Clients.isConnectedAt
                        (<[r := {| receiveEvents := receiveEvents c;
                                   _outstandingPing := _outstandingPing c;
                                   socket := Socket.closed (socket c) |}]> (heap s)) r'
                      = if decide (r = r') then false
                        else Clients.isConnectedAt (heap s) r').
  { intros r'. unfold Clients.isConnectedAt.
    destruct (decide (r = r')) as [<-|Hne].
    - rewrite list_lookup_insert_eq by (by eapply lookup_lt_Some). done.
    - by rewrite list_lookup_insert_ne. }
  repeat split; try done.
  - by rewrite length_insert.
  - by apply Ht.
  - rewrite Hat. by rewrite decide_True.
  - intros r' Hr'. rewrite Hat. by destruct (decide (r = r')).
Qed.

Lemma closeNotifications_run rs : ∀ s,
  timeouts s = (if cleanupScheduled (registry s) then 1 else 0) →
  Forall (λ r, r < length (heap s)) rs →
  ∃ s', run s (SocketClosed <$> rs) = Some s'
    ∧ timeouts s' = (if cleanupScheduled (registry s') then 1 else 0)
    ∧ length (heap s') = length (heap s)
    ∧ clients (registry s') = clients (registry s)
    ∧ (rs ≠ [] → cleanupScheduled (registry s') = true)
    ∧ (∀ r, Clients.isConnectedAt (heap s) r = false →
            Clients.isConnectedAt (heap s') r = false)
    ∧ (∀ r, r ∈ rs → Clients.isConnectedAt (heap s') r = false).
Proof.
  induction rs as [|r rs IH]; intros s HJ Hb.
  { exists s. repeat split; try done. intros r H. by apply not_elem_of_nil in H. }
  apply Forall_cons in Hb as [Hr Hb].
  apply lookup_lt_is_Some_2 in Hr as [c Hc].
  destruct (socketClosed_step s r c Hc HJ)
    as (s1 & Hstep & Hlen & Hcl & Hflag & Ht & Hclosed & Hmono).
  destruct (IH s1) as (s' & Hrun & HJ' & Hlen' & Hcl' & Hflag' & Hmono' & Hall).
  { by rewrite Hflag. }
  { by rewrite Hlen. }
  exists s'. split.
  { rewrite fmap_cons. unfold run; fold run. rewrite Hstep. exact Hrun. }
  repeat split; try congruence.
  - intros _. destruct rs as [|r0 rs0].
    + simpl in Hrun. congruence.
    + by apply Hflag'.
  - intros r' Hr'. by apply Hmono', Hmono.
  - intros r' [->|Hin]%elem_of_cons; [by apply Hmono'|by apply Hall].
Qed.

(** C9: along any sequence of close notifications at most one cleanup
    callback is queued; after the first notification the flag is set and
    exactly one is queued, however many follow; scheduling again is then a
    no-op, and the session set is not changed by the notifications.  When
    the queued callback runs it clears the flag, leaves nothing queued, and
    keeps exactly the sessions that are connected, so every session whose
    close was notified is gone after that single pass. *)
Theorem cleanup_debounced s rs :
  timeouts s = (if cleanupScheduled (registry s) then 1 else 0) →
  Forall (λ r, r < length (heap s)) rs →
  ∃ s', run s (SocketClosed <$> rs) = Some s'
    ∧ (timeouts s' ≤ 1)%nat
    ∧ clients (registry s') = clients (registry s)
    ∧ (rs ≠ [] →
       cleanupScheduled (registry s') = true
       ∧ timeouts s' = 1
       ∧ Clients.scheduleClientCleanup s' = s'
       ∧ ∃ s'', step s' TimeoutFires = Some s''
           ∧ cleanupScheduled (registry s'') = false
           ∧ timeouts s'' = 0
           ∧ step s'' TimeoutFires = None
           ∧ (∀ r, r ∈ clients (registry s'')
                   ↔ r ∈ clients (registry s)
                     ∧ Clients.isConnectedAt (heap s'') r = true)
           ∧ (∀ r, r ∈ rs → r ∉ clients (registry s''))).
Proof.
  intros HJ Hb.
  destruct (closeNotifications_run rs s HJ Hb)
    as (s' & Hrun & HJ' & Hlen & Hcl & Hflag & Hmono & Hall).
  exists s'. split; [done|]. split.
  { rewrite HJ'. destruct (cleanupScheduled (registry s')); lia. }
  split; [done|]. intros Hne. specialize (Hflag Hne).
  rewrite Hflag in HJ'. split; [done|]. split; [done|].
  split; [by apply scheduleClientCleanup_pending|].
  unfold step. rewrite HJ'. eexists. split; [reflexivity|]. simpl.
  split; [done|]. split; [done|]. split; [done|]. split.
  - intros r. by rewrite filter_elem_of, Hcl.
  - intros r Hin [_ Hconn]%filter_elem_of.
    rewrite (Hall r Hin) in Hconn. discriminate.
Qed.

Lemma cleanup_debounced_witness :
  ∃ s', run twoSessions (SocketClosed <$> [1; 0; 1]) = Some s'
    ∧ (timeouts s' ≤ 1)%nat
    ∧ clients (registry s') = [0; 1]
    ∧ ([1; 0; 1] ≠ [] →
       cleanupScheduled (registry s') = true
       ∧ timeouts s' = 1
       ∧ Clients.scheduleClientCleanup s' = s'
       ∧ ∃ s'', step s' TimeoutFires = Some s''
           ∧ cleanupScheduled (registry s'') = false
           ∧ timeouts s'' = 0
           ∧ step s'' TimeoutFires = None
           ∧ (∀ r, r ∈ clients (registry s'')
                   ↔ r ∈ [0; 1]
                     ∧ Clients.isConnectedAt (heap s'') r = true)
           ∧ (∀ r, r ∈ [1; 0; 1] → r ∉ clients (registry s''))).
Proof.
  apply (cleanup_debounced twoSessions [1; 0; 1]).
  - reflexivity.
  - vm_compute. repeat constructor.
Defined.

(** ** The invariant holds in every reachable state *)

Lemma consistent_new : consistent Clients.new.
Proof. split; simpl; try done. apply NoDup_nil. done. Qed.

Lemma consistent_withHeap s h :
  length h = length (heap s) → consistent s → consistent (withHeap h s).
Proof. intros Hlen [? ? ? ?]. split; simpl; try done. by rewrite Hlen. Qed.

Lemma consistent_addSocket env sock s :
  consistent s → consistent (Clients.addSocket env sock s).
Proof.
  intros [Hnd Hb Hint Hclean]. split; simpl; try done.
  - apply NoDup_app. split; [done|]. split; [|apply NoDup_singleton].
    intros r Hin ->%list_elem_of_singleton.
    rewrite Forall_forall in Hb. apply Hb in Hin. lia.
  - rewrite length_app. simpl. apply Forall_app. split.
    + eapply Forall_impl; [exact Hb|]. simpl. intros; lia.
    + apply Forall_singleton. lia.
  - rewrite Hint. by destruct (pingInterval (registry s)).
Qed.

Lemma consistent_sweep s : consistent s → consistent (Clients.sweep s).
Proof.
  intros [Hnd Hb Hint Hclean]. unfold Clients.sweep.
  pose proof (sweepLoop_spec (clients (registry s)) (heap s) []) as Hspec.
  destruct (Clients.sweepLoop (clients (registry s)) (heap s) []) as [h' new].
  destruct Hspec as (-> & Hlen & _). split; simpl; try done.
  - by apply filter_NoDup.
  - rewrite Hlen. apply Forall_forall. intros r [Hin _]%filter_elem_of.
    rewrite Forall_forall in Hb. by apply Hb.
Qed.

Lemma consistent_cleanupClients s n :
  consistent s → timeouts s = S n →
  consistent
    (Clients.cleanupClients
       {| heap := heap s; registry := registry s; intervals := intervals s;
          nextTimer := nextTimer s; timeouts := n |}).
Proof.
  intros [Hnd Hb Hint Hclean] Hn. split; simpl; try done.
  - by apply filter_NoDup.
  - apply Forall_forall. intros r [Hin _]%filter_elem_of.
    rewrite Forall_forall in Hb. by apply Hb.
  - rewrite Hn in Hclean. destruct (cleanupScheduled (registry s)); lia.
Qed.

Lemma consistent_scheduleClientCleanup s :
  consistent s → consistent (Clients.scheduleClientCleanup s).
Proof.
  intros [Hnd Hb Hint Hclean]. unfold Clients.scheduleClientCleanup.
  destruct (cleanupScheduled (registry s)) eqn:Hflag; split; simpl; try done.
  - by rewrite Hflag.
  - by rewrite Hclean.
Qed.

Lemma consistent_disconnect s : consistent s → consistent (Clients.disconnect s).
Proof.
  intros [Hnd Hb Hint Hclean]. split; simpl; try done.
  - apply NoDup_nil. done.
  - rewrite Hint.
    destruct (pingInterval (registry s)); [apply clearInterval_own|done].
Qed.

Lemma step_consistent s i s' :
  consistent s → step s i = Some s' → consistent s'.
Proof.
  intros Hs. destruct i as [env sock|r env parsed|r|r|handle| |event| ]; simpl.
  - intros [= <-]. by apply consistent_addSocket.
  - destruct (heap s !! r) as [c|]; simpl; [|done]. intros [= <-].
    apply consistent_withHeap; [apply length_insert|done].
  - destruct (heap s !! r) as [c|]; simpl; [|done]. intros [= <-].
    apply consistent_withHeap; [apply length_insert|done].
  - destruct (heap s !! r) as [c|]; simpl; [|done]. intros [= <-].
    apply consistent_scheduleClientCleanup, consistent_withHeap;
      [apply length_insert|done].
  - destruct (existsb (Nat.eqb handle) (intervals s)); [|done].
    intros [= <-]. by apply consistent_sweep.
  - destruct (timeouts s) as [|n] eqn:Hn; [done|]. intros [= <-].
    by apply consistent_cleanupClients.
  - destruct (eventForwarder (registry s)) as [[[|]]|]; try done.
    intros [= <-]. destruct Hs as [Hnd Hb Hint Hclean].
    split; simpl; try done. by rewrite length_fanOutLoop.
  - intros [= <-]. by apply consistent_disconnect.
Qed.

(** X21: from a fresh registry, whatever happens, the session set holds
    distinct live references, at most one sweep timer runs and at most one
    cleanup is pending. *)
Lemma reachable_consistent inputs s :
  run Clients.new inputs = Some s → consistent s.
Proof.
  assert (H : ∀ s0, consistent s0 → run s0 inputs = Some s → consistent s).
  { induction inputs as [|i inputs IH]; intros s0 Hs0; simpl.
    - by intros [= <-].
    - destruct (step s0 i) as [s1|] eqn:Hstep; simpl; [|done].
      apply IH. by eapply step_consistent. }
  apply H, consistent_new.
Qed.

(** ** More on the session *)

(** Everything [receiveMessage] can do to a session. *)
Lemma receiveMessage_effect env parsed c :
  let c' := fst (Client.receiveMessage env parsed c) in
  (parsed = None ∧ c' = Client.disconnect c)
  ∨ ((parsed = Some JNull ∨ parsed = Some JUndefined) ∧ c' = c)
  ∨ (∃ mid, isHandshake parsed = true
       ∧ c' = Client.setReceiveEvents true
                (Client.sendResultSuccess mid
                   (JObject [("state", dumpState env)]) c))
  ∨ (∃ msg mid result, parsed = Some msg
       ∧ isHandshake parsed = false
       ∧ c' = Client.sendResultSuccess mid result c)
  ∨ (∃ msg mid code, parsed = Some msg
       ∧ isHandshake parsed = false
       ∧ c' = Client.sendResultError mid code c).
Proof.
  destruct parsed as [msg|]; [|by left].
  assert (msg = JNull ∨ msg = JUndefined
          ∨ ∃ command mid, getProp "command" msg = inr command
                           ∧ getProp "messageId" msg = inr mid)
    as [->|[->|(command & mid & Hcmd & Hmid)]].
  { destruct msg; simpl; [by right; left|by left|..]; right; right; eauto. }
  { right; left; auto. }
  { right; left; auto. }
  right. right.
  assert (Herr : ∀ err, fst (Client.handleError msg err c)
            = Client.sendResultError mid
                (default ErrorCode.unknownError (instanceofBaseError err)) c).
  { intros err. unfold Client.handleError. rewrite Hmid.
    by destruct (instanceofBaseError err). }
  unfold Client.receiveMessage, isHandshake. rewrite Hcmd.
  destruct (strictEqString command "start_listening") eqn:Hstart.
  - left. exists mid. split; [done|].
    unfold Client.dispatch. rewrite Hcmd, Hstart, Hmid. reflexivity.
  - right.
    destruct command as [| |b|n|cmd|items|props];
      try (right; exists msg, mid, ErrorCode.unknownError; split; [done|];
           split; [done|]; unfold Client.dispatch; rewrite Hcmd;
           cbn [strictEqString]; apply (Herr TypeError)).
    destruct (dispatch_command env msg cmd c Hcmd Hstart) as (mid' & Hmid' & ->).
    assert (mid' = mid) as -> by congruence.
    destruct (instanceHandlers (groupOf cmd)) as [h|].
    + destruct (callHandler env h msg) as [result|err].
      * left. by exists msg, mid, result.
      * right. eexists msg, mid, _. split; [done|]. split; [done|]. apply Herr.
    + right. eexists msg, mid, _. split; [done|]. split; [done|]. apply Herr.
Qed.

Lemma countCalls_snoc p cs call :
  countCalls p (cs ++ [call]) = countCalls p cs + (if p call then 1 else 0).
Proof.
  unfold countCalls. rewrite List.filter_app, length_app. simpl.
  by destruct (p call).
Qed.

(** What one frame adds to the record of the socket. *)
Lemma receiveMessage_calls env parsed c :
  let c' := fst (Client.receiveMessage env parsed c) in
  _outstandingPing c' = _outstandingPing c
  ∧ receiveEvents c' = receiveEvents c || isHandshake parsed
  ∧ ((parsed = None
      ∧ calls (socket c') = calls (socket c) ++ [CallClose]
      ∧ Client.isConnected c' = false)
     ∨ ((parsed = Some JNull ∨ parsed = Some JUndefined) ∧ c' = c)
     ∨ (∃ msg frame, parsed = Some msg
          ∧ calls (socket c') = calls (socket c) ++ [CallSend frame]
          ∧ frameType frame = Some "result"
          ∧ readyState (socket c') = readyState (socket c))).
Proof.
  destruct (receiveMessage_effect env parsed c)
    as [[-> ->]|[[Hp ->]|[(mid & Hh & ->)|[(msg & mid & result & -> & Hh & ->)
                                          |(msg & mid & code & -> & Hh & ->)]]]].
  - split; [done|]. split; [by rewrite orb_false_r|]. left.
    split; [done|]. split; [done|]. apply disconnect_not_connected.
  - split; [done|]. split; [|by right; left].
    destruct Hp as [-> | ->]; by rewrite orb_false_r.
  - split; [done|]. split; [by rewrite Hh, orb_true_r|]. right. right.
    destruct parsed as [msg|]; [|done]. eexists msg, _.
    split; [done|]. split; [reflexivity|]. split; reflexivity.
  - split; [done|]. split; [by rewrite Hh, orb_false_r|]. right. right.
    eexists msg, _. split; [done|]. split; [reflexivity|]. split; reflexivity.
  - split; [done|]. split; [by rewrite Hh, orb_false_r|]. right. right.
    eexists msg, _. split; [done|]. split; [reflexivity|]. split; reflexivity.
Qed.

(** The [catch] clause, for a message whose [messageId] can be read. *)
Lemma caught_replies env msg mid err c :
  getProp "messageId" msg = inr mid →
  Client.dispatch env msg c = Client.Throw err c →
  repliesWith env msg c (λ c' frame,
    receiveEvents c' = receiveEvents c
    ∧ _outstandingPing c' = _outstandingPing c
    ∧ field "success" frame = Some (JBool false)
    ∧ field "result" frame = None
    ∧ field "errorCode" frame
        = Some (JString (default ErrorCode.unknownError (instanceofBaseError err)))).
Proof.
  intros Hmid Hd.
  destruct (sendResultError_frame mid
              (default ErrorCode.unknownError (instanceofBaseError err)) c)
    as (frame & Hcalls & Hres & Hs & Hc & Hm & Hr & _).
  unfold repliesWith, Client.receiveMessage. rewrite Hd.
  unfold Client.handleError. rewrite Hmid.
  exists (Client.sendResultError mid
            (default ErrorCode.unknownError (instanceofBaseError err)) c), frame.
  rewrite (echoedMessageId_eq _ _ Hmid).
  repeat split; done.
Qed.

(** The normal end of the [try] block after a handler has answered. *)
Lemma answered_replies env msg mid result c :
  getProp "messageId" msg = inr mid →
  Client.dispatch env msg c
    = Client.Normal (Client.sendResultSuccess mid result c) →
  repliesWith env msg c (λ c' frame,
    receiveEvents c' = receiveEvents c
    ∧ _outstandingPing c' = _outstandingPing c
    ∧ field "success" frame = Some (JBool true)
    ∧ field "errorCode" frame = None
    ∧ field "result" frame
        = match result with JUndefined => None | v => Some (JSON_stringify v) end).
Proof.
  intros Hmid Hd.
  destruct (sendResultSuccess_frame mid result c)
    as (frame & Hcalls & Hres & Hs & Hc & Hm & Hr).
  unfold repliesWith, Client.receiveMessage. rewrite Hd.
  eexists _, frame. rewrite (echoedMessageId_eq _ _ Hmid).
  repeat split; done.
Qed.

Lemma repliesWith_weaken env msg c (P Q : Client → Value → Prop) :
  (∀ c' frame, P c' frame → Q c' frame) →
  repliesWith env msg c P → repliesWith env msg c Q.
Proof.
  intros HPQ (c' & frame & H1 & H2 & H3 & H4 & H5 & HP).
  exists c', frame. repeat split; try done. by apply HPQ.
Qed.

(** X1: a frame that parses to anything but [null] is answered by exactly
    one result envelope, which is either a success without [errorCode] or a
    failure with a string [errorCode] and without [result], never both; the
    probe flag of the session is not touched. *)
Theorem reply_success_xor_failure env msg c :
  msg ≠ JNull → msg ≠ JUndefined →
  repliesWith env msg c (λ c' frame,
    _outstandingPing c' = _outstandingPing c
    ∧ (field "success" frame = Some (JBool true)
       ∧ field "errorCode" frame = None
       ∨ field "success" frame = Some (JBool false)
         ∧ field "result" frame = None
         ∧ ∃ code, field "errorCode" frame = Some (JString code))).
Proof.
  intros Hnull Hundef.
  assert (∃ command mid, getProp "command" msg = inr command
                         ∧ getProp "messageId" msg = inr mid)
    as (command & mid & Hcmd & Hmid).
  { destruct msg; try done; simpl; eauto. }
  assert (Hfail : ∀ err, Client.dispatch env msg c = Client.Throw err c →
    repliesWith env msg c (λ c' frame,
      _outstandingPing c' = _outstandingPing c
      ∧ (field "success" frame = Some (JBool true)
         ∧ field "errorCode" frame = None
         ∨ field "success" frame = Some (JBool false)
           ∧ field "result" frame = None
           ∧ ∃ code, field "errorCode" frame = Some (JString code)))).
  { intros err Hd. eapply repliesWith_weaken;
      [|exact (caught_replies env msg mid err c Hmid Hd)].
    intros c' frame (_ & Hp & Hs & Hr & Hc). split; [done|]. right. eauto. }
  assert (Hok : ∀ result,
    Client.dispatch env msg c
      = Client.Normal (Client.sendResultSuccess mid result c) →
    repliesWith env msg c (λ c' frame,
      _outstandingPing c' = _outstandingPing c
      ∧ (field "success" frame = Some (JBool true)
         ∧ field "errorCode" frame = None
         ∨ field "success" frame = Some (JBool false)
           ∧ field "result" frame = None
           ∧ ∃ code, field "errorCode" frame = Some (JString code)))).
  { intros result Hd. eapply repliesWith_weaken;
      [|exact (answered_replies env msg mid result c Hmid Hd)].
    intros c' frame (_ & Hp & Hs & Hc & _). split; [done|]. by left. }
  destruct (strictEqString command "start_listening") eqn:Hstart.
  - destruct (sendResultSuccess_frame mid (JObject [("state", dumpState env)]) c)
      as (frame & Hcalls & Hres & Hs & Hc & Hm & _).
    unfold repliesWith, Client.receiveMessage, Client.dispatch.
    rewrite Hcmd, Hstart, Hmid.
    eexists _, frame. rewrite (echoedMessageId_eq _ _ Hmid).
    repeat split; try done. by left.
  - destruct command as [| |b|n|cmd|items|props];
      try (apply (Hfail TypeError); unfold Client.dispatch; rewrite Hcmd;
           reflexivity).
    destruct (dispatch_command env msg cmd c Hcmd Hstart) as (mid' & Hmid' & Hd).
    assert (mid' = mid) as -> by congruence.
    destruct (instanceHandlers (groupOf cmd)) as [h|];
      [|by apply (Hfail (UnknownCommandError cmd))].
    destruct (callHandler env h msg) as [result|err];
      [by apply (Hok result)|by apply (Hfail err)].
Qed.

Lemma reply_success_xor_failure_witness :
  repliesWith sampleEnv (JNumber 42) sampleClient (λ c' frame,
    _outstandingPing c' = _outstandingPing sampleClient
    ∧ (field "success" frame = Some (JBool true)
       ∧ field "errorCode" frame = None
       ∨ field "success" frame = Some (JBool false)
         ∧ field "result" frame = None
         ∧ ∃ code, field "errorCode" frame = Some (JString code))).
Proof.
  apply (reply_success_xor_failure sampleEnv (JNumber 42) sampleClient);
    discriminate.
Defined.

(** X2: when the group of a command has a handler and the handler settles
    with a payload, the session answers with exactly one success envelope
    that holds the payload as encoded (no [result] property when the payload
    is [undefined]), and [receiveEvents] is left as it was. *)
Theorem handler_payload_reply env msg cmd h result c :
  getProp "command" msg = inr (JString cmd) →
  cmd ≠ "start_listening" →
  instanceHandlers (groupOf cmd) = Some h →
  callHandler env h msg = Resolve result →
  repliesWith env msg c (λ c' frame,
    receiveEvents c' = receiveEvents c
    ∧ field "success" frame = Some (JBool true)
    ∧ field "errorCode" frame = None
    ∧ field "result" frame
        = match result with JUndefined => None | v => Some (JSON_stringify v) end).
Proof.
  intros Hcmd Hne Hh Hcall.
  destruct (dispatch_command env msg cmd c Hcmd) as (mid & Hmid & Hd).
  { by apply String.eqb_neq. }
  rewrite Hh, Hcall in Hd.
  eapply repliesWith_weaken; [|exact (answered_replies env msg mid result c Hmid Hd)].
  intros c' frame (Hev & _ & Hs & Hc & Hr). done.
Qed.

Lemma handler_payload_reply_witness :
  repliesWith sampleEnv (commandEnvelope "4" "controller.begin_inclusion")
    sampleClient (λ c' frame,
      receiveEvents c' = receiveEvents sampleClient
      ∧ field "success" frame = Some (JBool true)
      ∧ field "errorCode" frame = None
      ∧ field "result" frame = Some (JSON_stringify (JObject []))).
Proof.
  apply (handler_payload_reply sampleEnv
           (commandEnvelope "4" "controller.begin_inclusion")
           "controller.begin_inclusion" ControllerHandler (JObject [])
           sampleClient); try reflexivity.
  discriminate.
Defined.

(** X3: when the handler of a command fails with a [BaseError], the session
    answers with exactly one failure envelope whose [errorCode] is the code
    of that error, unchanged. *)
Theorem classified_failure_reply env msg cmd h code c :
  getProp "command" msg = inr (JString cmd) →
  cmd ≠ "start_listening" →
  instanceHandlers (groupOf cmd) = Some h →
  callHandler env h msg = Reject (BaseError code) →
  repliesWith env msg c (λ c' frame,
    receiveEvents c' = receiveEvents c
    ∧ field "success" frame = Some (JBool false)
    ∧ field "result" frame = None
    ∧ field "errorCode" frame = Some (JString code)).
Proof.
  intros Hcmd Hne Hh Hcall.
  destruct (dispatch_command env msg cmd c Hcmd) as (mid & Hmid & Hd).
  { by apply String.eqb_neq. }
  rewrite Hh, Hcall in Hd.
  eapply repliesWith_weaken; [|exact (caught_replies env msg mid _ c Hmid Hd)].
  intros c' frame (Hev & _ & Hs & Hr & Hc). done.
Qed.

Lemma classified_failure_reply_witness :
  repliesWith refusingEnv (commandEnvelope "5" "controller.heal_node")
    sampleClient (λ c' frame,
      receiveEvents c' = receiveEvents sampleClient
      ∧ field "success" frame = Some (JBool false)
      ∧ field "result" frame = None
      ∧ field "errorCode" frame = Some (JString "node_not_found")).
Proof.
  apply (classified_failure_reply refusingEnv
           (commandEnvelope "5" "controller.heal_node")
           "controller.heal_node" ControllerHandler "node_not_found"
           sampleClient); try reflexivity.
  discriminate.
Defined.

(** X4: a message whose [command] is missing or is not a string (the
    message itself may be a number, a string or an array) is answered with
    exactly one failure envelope whose code is [unknownError], not
    [unknownCommand]; no handler is called and [receiveEvents] is left as
    it was. *)
Theorem malformed_command_reply env msg command c :
  getProp "command" msg = inr command →
  (∀ cmd, command ≠ JString cmd) →
  Client.dispatch env msg c = Client.Throw TypeError c
  ∧ repliesWith env msg c (λ c' frame,
      receiveEvents c' = receiveEvents c
      ∧ field "success" frame = Some (JBool false)
      ∧ field "errorCode" frame = Some (JString ErrorCode.unknownError)).
Proof.
  intros Hcmd Hnot.
  destruct (getProp_defined "command" "messageId" msg _ Hcmd) as [mid Hmid].
  assert (Hd : Client.dispatch env msg c = Client.Throw TypeError c).
  { unfold Client.dispatch. rewrite Hcmd.
    destruct command as [| |b|n|cmd|items|props]; try reflexivity.
    by destruct (Hnot cmd). }
  split; [exact Hd|].
  eapply repliesWith_weaken; [|exact (caught_replies env msg mid _ c Hmid Hd)].
  intros c' frame (Hev & _ & Hs & Hr & Hc). done.
Qed.

Lemma malformed_command_reply_witness :
  repliesWith sampleEnv (JObject [("messageId", JString "3")]) sampleClient
    (λ c' frame,
      receiveEvents c' = receiveEvents sampleClient
      ∧ field "success" frame = Some (JBool false)
      ∧ field "errorCode" frame = Some (JString ErrorCode.unknownError)).
Proof.
  apply (malformed_command_reply sampleEnv
           (JObject [("messageId", JString "3")]) JUndefined sampleClient).
  - reflexivity.
  - discriminate.
Defined.

(** X5: every command of [DriverCommand], with any [messageId] and on any
    session, is answered with one failure envelope whose code is
    [unknownError]: the driver group is registered but its handler only
    throws. *)
Theorem driver_commands_fail (d : DriverCommand.t) env mid c :
  groupOf (DriverCommand.value d) = Instance.driver
  ∧ repliesWith env (commandEnvelope mid (DriverCommand.value d)) c
      (λ c' frame,
        receiveEvents c' = receiveEvents c
        ∧ field "success" frame = Some (JBool false)
        ∧ field "messageId" frame = Some (JString mid)
        ∧ field "errorCode" frame = Some (JString ErrorCode.unknownError)).
Proof.
  assert (Hg : groupOf (DriverCommand.value d) = Instance.driver)
    by (by destruct d).
  split; [exact Hg|].
  set (msg := commandEnvelope mid (DriverCommand.value d)).
  assert (Hcmd : getProp "command" msg = inr (JString (DriverCommand.value d)))
    by reflexivity.
  assert (Hmid : getProp "messageId" msg = inr (JString mid)) by reflexivity.
  destruct (dispatch_command env msg _ c Hcmd) as (mid' & Hmid' & Hd).
  { by destruct d. }
  rewrite Hg in Hd. cbn in Hd.
  destruct (caught_replies env msg (JString mid) _ c Hmid Hd)
    as (c' & frame & H1 & H2 & H3 & H4 & H5 & Hev & _ & Hs & _ & Hc).
  exists c', frame. repeat split; done.
Qed.

Lemma groupOf_cons ch rest :
  groupOf (String ch rest)
  = if Ascii.eqb ch "." then EmptyString else String ch (groupOf rest).
Proof.
  unfold groupOf. simpl. destruct (Ascii.eqb ch "."); [done|].
  by destruct (split "." rest).
Qed.

(** X6: the group that selects the handler is the text of the command
    before its first dot and nothing else: [g] is the group of a command
    exactly when [g] has no dot and the command is [g] or [g] followed by a
    dot and any remainder. *)
Theorem groupOf_spec cmd g :
  groupOf cmd = g
  ↔ ¬ In "."%char (list_ascii_of_string g)
    ∧ (cmd = g ∨ ∃ rest, cmd = (g ++ String "." rest)%string).
Proof.
  split.
  - intros <-. induction cmd as [|ch cmd [IHdot IHeq]].
    { split; [intros []|by left]. }
    rewrite groupOf_cons. destruct (Ascii.eqb_spec ch ".") as [->|Hne].
    + split; [intros []|]. right. by exists cmd.
    + split.
      * intros [Heq|Hin]; [by apply Hne|by apply IHdot].
      * destruct IHeq as [Heq|[rest Heq]].
        -- left. by f_equal.
        -- right. exists rest.
           change (String ch cmd
                   = String ch (groupOf cmd ++ String "." rest)%string).
           by f_equal.
  - intros [Hdot Heq]. revert cmd Heq.
    induction g as [|ch g IH]; intros cmd Heq.
    + destruct Heq as [->|[rest ->]]; reflexivity.
    + assert (Hch : Ascii.eqb ch "." = false).
      { apply Ascii.eqb_neq. intros ->. apply Hdot. by left. }
      assert (Hg : ¬ In "."%char (list_ascii_of_string g)).
      { intros Hin. apply Hdot. by right. }
      destruct Heq as [->|[rest ->]].
      * rewrite groupOf_cons, Hch. f_equal. apply IH; auto.
      * change (groupOf (String ch (g ++ String "." rest)%string) = String ch g).
        rewrite groupOf_cons, Hch. f_equal. apply IH; [done|].
        right. by exists rest.
Qed.

(** X7: over any sequence of frames none of which is [null], the session
    sends as many envelopes as frames parsed, all of them results, calls
    [close] once for every frame that did not parse, and sends no probe. *)
Theorem receiveFrames_counts c frames :
  Forall (λ f, snd f ≠ Some JNull ∧ snd f ≠ Some JUndefined) frames →
  let before := calls (socket c) in
  let after := calls (socket (receiveFrames c frames)) in
  countCalls (sendsType "result") after
    = countCalls (sendsType "result") before + parsedFrames frames
  ∧ countCalls isSendCall after
    = countCalls isSendCall before + parsedFrames frames
  ∧ countCalls isCloseCall after
    = countCalls isCloseCall before + (length frames - parsedFrames frames)
  ∧ countCalls isPingCall after = countCalls isPingCall before.
Proof.
  intros Hok. revert c. induction Hok as [|[env parsed] frames [Hn Hu] Hok IH];
    intros c; simpl.
  { unfold parsedFrames. simpl. repeat split; lia. }
  destruct (IH (fst (Client.receiveMessage env parsed c)))
    as (IH1 & IH2 & IH3 & IH4).
  rewrite IH1, IH2, IH3, IH4. clear IH IH1 IH2 IH3 IH4.
  assert (Hle : (parsedFrames frames ≤ length frames)%nat).
  { unfold parsedFrames. apply List.filter_length_le. }
  simpl in Hn, Hu.
  assert (Hcons : parsedFrames ((env, parsed) :: frames)
                  = (match parsed with Some _ => 1 | None => 0 end)
                    + parsedFrames frames).
  { unfold parsedFrames. simpl. by destruct parsed. }
  rewrite Hcons. clear Hcons.
  destruct (receiveMessage_calls env parsed c)
    as (_ & _ & [(-> & -> & _)|[[[-> | ->] _]|(msg & frame & -> & -> & Hty & _)]]);
    try done.
  - rewrite !countCalls_snoc. simpl. repeat split; lia.
  - rewrite !countCalls_snoc. simpl. rewrite Hty. simpl. repeat split; lia.
Qed.

Lemma receiveFrames_counts_witness :
  countCalls isSendCall
    (calls (socket (receiveFrames sampleClient
                      [ (sampleEnv, Some (commandEnvelope "1" "start_listening"));
                        (sampleEnv, None);
                        (sampleEnv, Some (JString "hello")) ])))
  = countCalls isSendCall (calls (socket sampleClient)) + 2.
Proof.
  apply (receiveFrames_counts sampleClient
           [ (sampleEnv, Some (commandEnvelope "1" "start_listening"));
             (sampleEnv, None);
             (sampleEnv, Some (JString "hello")) ]).
  repeat constructor; discriminate.
Defined.

(** X8: a session's [receiveEvents] flag after any sequence of frames is
    its value before, or true as soon as one of the frames is the
    handshake; no frame ever clears it, and nothing but the exact command
    ["start_listening"] sets it. *)
Theorem receiveEvents_after_frames c frames :
  receiveEvents (receiveFrames c frames)
  = receiveEvents c || existsb (λ f, isHandshake (snd f)) frames.
Proof.
  revert c. induction frames as [|[env parsed] frames IH]; intros c; simpl.
  { by rewrite orb_false_r. }
  rewrite IH.
  destruct (receiveMessage_calls env parsed c) as (_ & -> & _).
  by rewrite orb_assoc.
Qed.

Lemma receiveFrames_outstandingPing c frames :
  _outstandingPing (receiveFrames c frames) = _outstandingPing c.
Proof.
  revert c. induction frames as [|[env parsed] frames IH]; intros c; simpl.
  { done. }
  rewrite IH. by destruct (receiveMessage_calls env parsed c) as (-> & _).
Qed.

(** X9: a probe that is not acknowledged costs the connection whatever the
    client sends meanwhile: after [checkAlive], any sequence of inbound
    frames and a second [checkAlive], the session has had [close] called as
    its last transport call and is not connected.  Frames are no
    acknowledgment. *)
Theorem unanswered_probe_disconnects c frames :
  let c' := Client.checkAlive (receiveFrames (Client.checkAlive c) frames) in
  c' = Client.disconnect (receiveFrames (Client.checkAlive c) frames)
  ∧ Client.isConnected c' = false
  ∧ ∃ earlier, calls (socket c') = earlier ++ [CallClose].
Proof.
  assert (Hflag : _outstandingPing (receiveFrames (Client.checkAlive c) frames)
                  = true).
  { rewrite receiveFrames_outstandingPing. unfold Client.checkAlive.
    by destruct (_outstandingPing c) eqn:H. }
  assert (Heq : Client.checkAlive (receiveFrames (Client.checkAlive c) frames)
                = Client.disconnect (receiveFrames (Client.checkAlive c) frames)).
  { unfold Client.checkAlive at 1. by rewrite Hflag. }
  simpl. rewrite Heq. split; [done|]. split.
  - apply disconnect_not_connected.
  - eexists. reflexivity.
Qed.

(** X10: a session that acknowledges every probe is never closed by
    [checkAlive]: after any number of rounds of probe and ["pong"] the
    transport has been asked for that many pings and nothing else, and the
    session is as connected as before. *)
Theorem answered_probes_keep_connection n c :
  _outstandingPing c = false →
  let c' := probeRounds n c in
  calls (socket c') = calls (socket c) ++ replicate n CallPing
  ∧ readyState (socket c') = readyState (socket c)
  ∧ _outstandingPing c' = false
  ∧ receiveEvents c' = receiveEvents c.
Proof.
  revert c. induction n as [|n IH]; intros c Hflag; simpl.
  { by rewrite app_nil_r. }
  destruct (IH (Client.onPong (Client.checkAlive c))) as (Hc & Hr & Hp & He).
  { reflexivity. }
  rewrite Hc, Hr, Hp, He. unfold Client.checkAlive. rewrite Hflag. simpl.
  rewrite <- app_assoc. done.
Qed.

Lemma answered_probes_keep_connection_witness :
  calls (socket (probeRounds 3 sampleClient))
  = calls (socket sampleClient) ++ replicate 3 CallPing.
Proof.
  apply (answered_probes_keep_connection 3 sampleClient). reflexivity.
Defined.

(** ** More on the registry *)

Lemma sweepLoop_all_connected refs (h : list Client) acc :
  Forall (λ r, Clients.isConnectedAt h r = true) refs →
  Clients.sweepLoop refs h acc = (h, acc ++ refs).
Proof.
  intros Hall. revert acc. induction Hall as [|a refs Ha Hall IH]; intros acc.
  { simpl. by rewrite app_nil_r. }
  simpl. unfold Clients.isConnectedAt in Ha.
  destruct (h !! a) as [c|]; [|done]. rewrite Ha, IH, <- app_assoc. done.
Qed.

(** X11: the periodic sweep keeps exactly the tracked sessions that are
    connected, in their order, which is what the debounced cleanup keeps
    too; every session it keeps is connected afterwards, and a second sweep
    right after changes nothing. *)
Theorem sweep_spec s :
  let s' := Clients.sweep s in
  clients (registry s')
    = List.filter (Clients.isConnectedAt (heap s)) (clients (registry s))
  ∧ clients (registry s') = clients (registry (Clients.cleanupClients s))
  ∧ (∀ r, r ∈ clients (registry s') → Clients.isConnectedAt (heap s') r = true)
  ∧ Clients.sweep s' = s'.
Proof.
  unfold Clients.sweep.
  pose proof (sweepLoop_spec (clients (registry s)) (heap s) []) as Hspec.
  destruct (Clients.sweepLoop (clients (registry s)) (heap s) [])
    as [h' new] eqn:Hloop.
  destruct Hspec as (Hnew & Hlen & Hconn & Hkeep). simpl in Hnew. simpl.
  assert (Hall : Forall (λ r, Clients.isConnectedAt h' r = true) new).
  { apply Forall_forall. intros r Hin. rewrite Hconn.
    rewrite Hnew in Hin. by apply filter_elem_of in Hin as [_ ?]. }
  split; [done|]. split; [done|]. split.
  { intros r Hin. rewrite Forall_forall in Hall. by apply Hall. }
  by rewrite (sweepLoop_all_connected new h' []).
Qed.

Lemma sweepLoop_lookup refs (h : list Client) acc r :
  NoDup refs →
  (Clients.sweepLoop refs h acc).1 !! r =
    if decide (r ∈ refs)
    then (λ c, if Client.isConnected c then c else Client.disconnect c)
           <$> h !! r
    else h !! r.
Proof.
  intros Hnd. revert h acc.
  induction Hnd as [|a refs Ha Hnd IH]; intros h acc.
  { simpl. destruct (decide (r ∈ [])) as [H|]; [|done].
    by apply not_elem_of_nil in H. }
  assert (Hmem : ∀ X Y : option Client,
            (if decide (r ∈ a :: refs) then X else Y)
            = if decide (r = a) then X
              else if decide (r ∈ refs) then X else Y).
  { intros X Y. destruct (decide (r = a)) as [->|Hne].
    - rewrite decide_True; [done|]. apply list_elem_of_here.
    - destruct (decide (r ∈ refs)) as [Hin|Hin].
      + rewrite decide_True; [done|]. by apply list_elem_of_further.
      + rewrite decide_False; [done|]. intros [?|?]%elem_of_cons; done. }
  rewrite Hmem. simpl. destruct (h !! a) as [c|] eqn:Hc.
  - destruct (Client.isConnected c) eqn:Hconn.
    + rewrite IH. destruct (decide (r = a)) as [->|Hne]; [|done].
      rewrite decide_False by done. rewrite Hc. simpl. by rewrite Hconn.
    + rewrite IH. destruct (decide (r = a)) as [->|Hne].
      * rewrite decide_False by done.
        rewrite list_lookup_insert_eq by (by eapply lookup_lt_Some).
        rewrite Hc. simpl. by rewrite Hconn.
      * by rewrite list_lookup_insert_ne.
  - rewrite IH. destruct (decide (r = a)) as [->|Hne]; [|done].
    rewrite decide_False by done. by rewrite Hc.
Qed.

(** X12: a tracked session that is not connected when the interval fires
    has [close] called on it exactly once and is dropped from the session
    set. *)
Theorem sweep_closes_dropped s r c :
  NoDup (clients (registry s)) →
  r ∈ clients (registry s) →
  heap s !! r = Some c →
  Client.isConnected c = false →
  heap (Clients.sweep s) !! r = Some (Client.disconnect c)
  ∧ calls (socket (Client.disconnect c)) = calls (socket c) ++ [CallClose]
  ∧ r ∉ clients (registry (Clients.sweep s)).
Proof.
  intros Hnd Hin Hr Hc.
  pose proof (sweepLoop_lookup (clients (registry s)) (heap s) [] r Hnd) as Hl.
  pose proof (sweepLoop_spec (clients (registry s)) (heap s) []) as Hspec.
  unfold Clients.sweep.
  destruct (Clients.sweepLoop (clients (registry s)) (heap s) []) as [h' new].
  destruct Hspec as (-> & _). simpl in *.
  rewrite decide_True in Hl by done. rewrite Hr in Hl. simpl in Hl.
  rewrite Hc in Hl. split; [done|]. split; [done|].
  intros [_ Hconn]%filter_elem_of. unfold Clients.isConnectedAt in Hconn.
  rewrite Hr in Hconn. congruence.
Qed.

Lemma sweep_closes_dropped_witness :
  heap (Clients.sweep staleSystem) !! 1
  = Some (Client.disconnect
            {| receiveEvents := true; _outstandingPing := false;
               socket := {| readyState := CLOSED; calls := [] |} |}).
Proof.
  apply (sweep_closes_dropped staleSystem 1
           {| receiveEvents := true; _outstandingPing := false;
              socket := {| readyState := CLOSED; calls := [] |} |}).
  - vm_compute. apply NoDup_cons. split.
    + intros H%list_elem_of_singleton. discriminate H.
    + apply NoDup_singleton.
  - vm_compute. apply list_elem_of_further, list_elem_of_here.
  - reflexivity.
  - reflexivity.
Defined.

Lemma reachable_consistent_witness :
  consistent
    (Clients.sweep
       (Clients.addSocket sampleEnv openSocket
          (Clients.addSocket sampleEnv openSocket Clients.new))).
Proof.
  apply (reachable_consistent
           [ Connection sampleEnv openSocket;
             Connection sampleEnv openSocket;
             IntervalFires 0 ]).
  reflexivity.
Defined.

(** ** How a session evolves inside the registry *)

Lemma fanOutLoop_moves event refs (h : list Client) r c :
  h !! r = Some c →
  ∃ c', Clients.fanOutLoop event refs h !! r = Some c' ∧ rtc sessionMove c c'.
Proof.
  revert h c. induction refs as [|a refs IH]; intros h c Hr; simpl.
  { by exists c. }
  destruct (h !! a) as [ca|] eqn:Ha; [|by apply IH].
  destruct (receiveEvents ca && Client.isConnected ca) eqn:Hflags;
    [|by apply IH].
  destruct (decide (a = r)) as [->|Hne].
  - assert (ca = c) as -> by congruence.
    destruct (IH (<[r := Client.sendEvent event c]> h) (Client.sendEvent event c))
      as (c' & Hc' & Hrtc).
    { apply list_lookup_insert_eq. by eapply lookup_lt_Some. }
    exists c'. split; [done|]. eapply rtc_l; [|exact Hrtc]. by constructor.
  - apply IH. by rewrite list_lookup_insert_ne.
Qed.

Lemma sweepLoop_moves refs (h : list Client) acc r c :
  h !! r = Some c →
  ∃ c', (Clients.sweepLoop refs h acc).1 !! r = Some c' ∧ rtc sessionMove c c'.
Proof.
  revert h acc c. induction refs as [|a refs IH]; intros h acc c Hr; simpl.
  { by exists c. }
  destruct (h !! a) as [ca|] eqn:Ha; [|by apply IH].
  destruct (Client.isConnected ca) eqn:Hconn; [by apply IH|].
  destruct (decide (a = r)) as [->|Hne].
  - assert (ca = c) as -> by congruence.
    destruct (IH (<[r := Client.disconnect c]> h) acc (Client.disconnect c))
      as (c' & Hc' & Hrtc).
    { apply list_lookup_insert_eq. by eapply lookup_lt_Some. }
    exists c'. split; [done|]. eapply rtc_l; [|exact Hrtc]. constructor.
  - apply IH. by rewrite list_lookup_insert_ne.
Qed.

Lemma disconnectAll_moves refs (h : list Client) r c :
  h !! r = Some c →
  ∃ c', Clients.disconnectAll refs h !! r = Some c' ∧ rtc sessionMove c c'.
Proof.
  revert h c. induction refs as [|a refs IH]; intros h c Hr; simpl.
  { by exists c. }
  destruct (decide (a = r)) as [->|Hne].
  - destruct (IH (alter Client.disconnect r h) (Client.disconnect c))
      as (c' & Hc' & Hrtc).
    { rewrite list_lookup_alter, decide_True by done. by rewrite Hr. }
    exists c'. split; [done|]. eapply rtc_l; [|exact Hrtc]. constructor.
  - apply IH. by rewrite list_lookup_alter_ne.
Qed.

(** One turn of the event loop, seen from a session that exists: either the
    turn is a frame received on it, or the session makes some moves. *)
Lemma step_session s i s' r c :
  step s i = Some s' →
  heap s !! r = Some c →
  ∃ c', heap s' !! r = Some c'
    ∧ ((∃ env parsed, i = Message r env parsed
          ∧ c' = (Client.receiveMessage env parsed c).1)
       ∨ rtc sessionMove c c').
Proof.
  intros Hstep Hr.
  destruct i as [env sock|r0 env parsed|r0|r0|handle| |event| ];
    simpl in Hstep.
  - injection Hstep as <-. exists c. split; [|by right]. simpl.
    by apply lookup_app_l_Some.
  - destruct (heap s !! r0) as [c0|] eqn:Hr0; simpl in Hstep; [|done].
    injection Hstep as <-. simpl. destruct (decide (r0 = r)) as [->|Hne].
    + assert (c0 = c) as -> by congruence. eexists. split.
      * apply list_lookup_insert_eq. by eapply lookup_lt_Some.
      * left. eauto.
    + exists c. split; [by rewrite list_lookup_insert_ne|by right].
  - destruct (heap s !! r0) as [c0|] eqn:Hr0; simpl in Hstep; [|done].
    injection Hstep as <-. simpl. destruct (decide (r0 = r)) as [->|Hne].
    + assert (c0 = c) as -> by congruence. eexists. split.
      * apply list_lookup_insert_eq. by eapply lookup_lt_Some.
      * right. apply rtc_once. constructor.
    + exists c. split; [by rewrite list_lookup_insert_ne|by right].
  - destruct (heap s !! r0) as [c0|] eqn:Hr0; simpl in Hstep; [|done].
    injection Hstep as <-.
    match goal with
    | |- context [Clients.scheduleClientCleanup ?t] =>
        destruct (scheduleClientCleanup_spec t) as (-> & _)
    end. simpl. destruct (decide (r0 = r)) as [->|Hne].
    + assert (c0 = c) as -> by congruence. eexists. split.
      * apply list_lookup_insert_eq. by eapply lookup_lt_Some.
      * right. apply rtc_once. apply MoveClosed.
    + exists c. split; [by rewrite list_lookup_insert_ne|by right].
  - destruct (existsb (Nat.eqb handle) (intervals s)); [|done].
    injection Hstep as <-. unfold Clients.sweep.
    destruct (sweepLoop_moves (clients (registry s)) (heap s) [] r c Hr)
      as (c' & Hc' & Hrtc).
    destruct (Clients.sweepLoop (clients (registry s)) (heap s) []) as [h' new].
    exists c'. split; [done|by right].
  - destruct (timeouts s) as [|n]; [done|]. injection Hstep as <-.
    exists c. split; [done|by right].
  - destruct (eventForwarder (registry s)) as [[[|]]|]; simpl in Hstep;
      try done.
    injection Hstep as <-.
    destruct (fanOutLoop_moves event (clients (registry s)) (heap s) r c Hr)
      as (c' & Hc' & Hrtc).
    exists c'. split; [done|by right].
  - injection Hstep as <-.
    destruct (disconnectAll_moves (clients (registry s)) (heap s) r c Hr)
      as (c' & Hc' & Hrtc).
    exists c'. split; [done|by right].
Qed.

(** A session that appears in a turn was accepted in that turn, and has
    been sent the version envelope and nothing else. *)
Lemma step_session_new s i s' r c' :
  step s i = Some s' →
  heap s !! r = None →
  heap s' !! r = Some c' →
  ∃ env sock, i = Connection env sock
    ∧ c' = Client.sendVersion env (Client.new sock).
Proof.
  intros Hstep Hr Hr'.
  assert (Hlen : length (heap s') = length (heap s) → False).
  { intros Hlen. apply lookup_ge_None in Hr. apply lookup_lt_Some in Hr'. lia. }
  destruct i as [env sock|r0 env parsed|r0|r0|handle| |event| ];
    simpl in Hstep.
  - injection Hstep as <-. exists env, sock. split; [done|].
    simpl in Hr'. apply lookup_ge_None in Hr.
    apply lookup_lt_Some in Hr' as Hlt. rewrite length_app in Hlt.
    simpl in Hlt. assert (r = length (heap s)) as -> by lia.
    rewrite list_lookup_middle in Hr' by done. congruence.
  - destruct (heap s !! r0) as [c0|]; simpl in Hstep; [|done].
    injection Hstep as <-. exfalso. apply Hlen. simpl. apply length_insert.
  - destruct (heap s !! r0) as [c0|]; simpl in Hstep; [|done].
    injection Hstep as <-. exfalso. apply Hlen. simpl. apply length_insert.
  - destruct (heap s !! r0) as [c0|]; simpl in Hstep; [|done].
    injection Hstep as <-. exfalso. apply Hlen.
    match goal with
    | |- context [Clients.scheduleClientCleanup ?t] =>
        destruct (scheduleClientCleanup_spec t) as (-> & _)
    end. simpl. apply length_insert.
  - destruct (existsb (Nat.eqb handle) (intervals s)); [|done].
    injection Hstep as <-. exfalso. apply Hlen. unfold Clients.sweep.
    pose proof (sweepLoop_spec (clients (registry s)) (heap s) []) as Hspec.
    destruct (Clients.sweepLoop (clients (registry s)) (heap s) []) as [h' new].
    by destruct Hspec as (_ & ? & _).
  - destruct (timeouts s) as [|n]; [done|]. injection Hstep as <-.
    exfalso. by apply Hlen.
  - destruct (eventForwarder (registry s)) as [[[|]]|]; simpl in Hstep;
      try done.
    injection Hstep as <-. exfalso. apply Hlen. apply length_fanOutLoop.
  - injection Hstep as <-. exfalso. apply Hlen. apply length_disconnectAll.
Qed.

Lemma moves_preserve (P : Client → Prop) c c' :
  (∀ c1 c2, sessionMove c1 c2 → P c1 → P c2) →
  rtc sessionMove c c' → P c → P c'.
Proof. intros Hmove Hrtc. induction Hrtc; eauto. Qed.

(** A property of one session that frames and moves preserve holds along
    every run in which the session exists from the start. *)
Lemma run_session_forward (P : Client → Prop) (ok : Input → Prop) r :
  (∀ c env parsed, ok (Message r env parsed) → P c →
                   P (Client.receiveMessage env parsed c).1) →
  (∀ c1 c2, sessionMove c1 c2 → P c1 → P c2) →
  ∀ inputs s s' c,
    run s inputs = Some s' → Forall ok inputs →
    heap s !! r = Some c → P c →
    ∃ c', heap s' !! r = Some c' ∧ P c'.
Proof.
  intros Hframe Hmove. induction inputs as [|i inputs IH];
    intros s s' c Hrun Hok Hr HP; simpl in Hrun.
  { injection Hrun as <-. eauto. }
  destruct (step s i) as [s1|] eqn:Hstep; simpl in Hrun; [|done].
  apply Forall_cons in Hok as [Hi Hok].
  destruct (step_session s i s1 r c Hstep Hr)
    as (c1 & Hr1 & [(env & parsed & -> & ->)|Hrtc]).
  - eapply IH; eauto.
  - eapply IH; eauto. eapply moves_preserve; eauto.
Qed.

(** The same for sessions accepted during the run. *)
Lemma run_session_backward (P : Client → Prop) (ok : Input → Prop) r :
  (∀ c env parsed, ok (Message r env parsed) → P c →
                   P (Client.receiveMessage env parsed c).1) →
  (∀ c1 c2, sessionMove c1 c2 → P c1 → P c2) →
  (∀ env sock, ok (Connection env sock) →
               P (Client.sendVersion env (Client.new sock))) →
  ∀ inputs s s',
    run s inputs = Some s' → Forall ok inputs →
    (∀ c, heap s !! r = Some c → P c) →
    ∀ c', heap s' !! r = Some c' → P c'.
Proof.
  intros Hframe Hmove Hnew. induction inputs as [|i inputs IH];
    intros s s' Hrun Hok Hinit c' Hr'; simpl in Hrun.
  { injection Hrun as <-. eauto. }
  destruct (step s i) as [s1|] eqn:Hstep; simpl in Hrun; [|done].
  apply Forall_cons in Hok as [Hi Hok].
  eapply (IH s1 s'); eauto. intros c1 Hr1.
  destruct (heap s !! r) as [c|] eqn:Hr.
  - destruct (step_session s i s1 r c Hstep Hr) as (c2 & Hr2 & Hcase).
    assert (c2 = c1) as -> by congruence.
    destruct Hcase as [(env & parsed & -> & ->)|Hrtc].
    + apply Hframe; auto.
    + eapply moves_preserve; eauto.
  - destruct (step_session_new s i s1 r c1 Hstep Hr Hr1)
      as (env & sock & -> & ->).
    by apply Hnew.
Qed.

Lemma sendsType_result_not_event frame :
  frameType frame = Some "result" → sendsType "event" (CallSend frame) = false.
Proof. intros H. simpl. by rewrite H. Qed.

(** What a frame and a move do to the count of event envelopes sent. *)
Lemma receiveMessage_events env parsed c :
  countCalls (sendsType "event")
    (calls (socket (Client.receiveMessage env parsed c).1))
  = countCalls (sendsType "event") (calls (socket c)).
Proof.
  destruct (receiveMessage_calls env parsed c)
    as (_ & _ & [(_ & -> & _)|[[_ ->]|(msg & frame & _ & -> & Hty & _)]]).
  - rewrite countCalls_snoc. simpl. lia.
  - done.
  - rewrite countCalls_snoc, sendsType_result_not_event by done. lia.
Qed.

Lemma receiveMessage_stays_closed env parsed c :
  Client.isConnected c = false →
  Client.isConnected (Client.receiveMessage env parsed c).1 = false.
Proof.
  intros Hc.
  destruct (receiveMessage_calls env parsed c)
    as (_ & _ & [(_ & _ & ?)|[[_ ->]|(msg & frame & _ & _ & _ & Hrs)]]);
    try done.
  unfold Client.isConnected, Socket.isOpen in *. by rewrite Hrs.
Qed.

(** X13: a session that has not sent the handshake is never sent an event:
    in every state reached from a fresh registry by a run in which no frame
    received on session [r] is ["start_listening"], that session has
    [receiveEvents] false and no event envelope among its transport calls,
    however many upstream events were delivered. *)
Theorem no_event_before_handshake inputs s r c :
  run Clients.new inputs = Some s →
  Forall freshConnection inputs →
  Forall (noHandshake r) inputs →
  heap s !! r = Some c →
  receiveEvents c = false
  ∧ countCalls (sendsType "event") (calls (socket c)) = 0.
Proof.
  intros Hrun Hfresh Hno Hr.
  apply (run_session_backward
           (λ c, receiveEvents c = false
                 ∧ countCalls (sendsType "event") (calls (socket c)) = 0)
           (λ i, freshConnection i ∧ noHandshake r i) r)
    with (inputs := inputs) (s := Clients.new) (s' := s); try done.
  - intros c0 env parsed [_ Hh] [Hev Hcount]. simpl in Hh.
    rewrite receiveMessage_events.
    destruct (receiveMessage_calls env parsed c0) as (_ & -> & _).
    rewrite Hev, Hh by done. done.
  - intros c1 c2 Hmove [Hev Hcount].
    destruct Hmove as [| | |event Hflags]; simpl; try done.
    + rewrite countCalls_snoc. simpl. split; [done|lia].
    + rewrite Hev in Hflags. discriminate.
  - intros env sock [Hfr _]. simpl in Hfr. split; [done|].
    simpl. rewrite Hfr. reflexivity.
  - by apply Forall_and.
Qed.

Lemma no_event_before_handshake_witness :
  receiveEvents
    (Client.receiveMessage sampleEnv
       (Some (commandEnvelope "1" "controller.get_state"))
       (Client.sendVersion sampleEnv (Client.new openSocket))).1 = false
  ∧ countCalls (sendsType "event")
      (calls (socket
         (Client.receiveMessage sampleEnv
            (Some (commandEnvelope "1" "controller.get_state"))
            (Client.sendVersion sampleEnv (Client.new openSocket))).1)) = 0.
Proof.
  apply (no_event_before_handshake quietRun
           (default Clients.new (run Clients.new quietRun)) 0).
  - reflexivity.
  - repeat constructor.
  - repeat constructor.
  - reflexivity.
Defined.

(** X14: once the transport of a session is closed, or [close] has been
    called on it, the session is never connected again and is sent no
    further event, whatever happens afterwards. *)
Theorem closed_session_gets_no_event inputs s s' r c :
  run s inputs = Some s' →
  heap s !! r = Some c →
  Client.isConnected c = false →
  ∃ c', heap s' !! r = Some c'
    ∧ Client.isConnected c' = false
    ∧ countCalls (sendsType "event") (calls (socket c'))
      = countCalls (sendsType "event") (calls (socket c)).
Proof.
  intros Hrun Hr Hc.
  apply (run_session_forward
           (λ c', Client.isConnected c' = false
                  ∧ countCalls (sendsType "event") (calls (socket c'))
                    = countCalls (sendsType "event") (calls (socket c)))
           (λ _, True) r)
    with (inputs := inputs) (s := s) (c := c); try done.
  - intros c0 env parsed _ [Hconn Hcount].
    rewrite receiveMessage_events. split; [|done].
    by apply receiveMessage_stays_closed.
  - intros c1 c2 Hmove [Hconn Hcount].
    destruct Hmove as [| | |event Hflags]; simpl; try done.
    + split; [apply disconnect_not_connected|].
      rewrite countCalls_snoc. simpl. lia.
    + rewrite Hconn, andb_false_r in Hflags. discriminate.
  - by apply Forall_true.
Qed.

Lemma closed_session_gets_no_event_witness :
  ∃ c', heap (default staleSystem
                (run staleSystem [Upstream sampleEvent; IntervalFires 0;
                                  Upstream sampleEvent])) !! 1 = Some c'
    ∧ Client.isConnected c' = false
    ∧ countCalls (sendsType "event") (calls (socket c'))
      = countCalls (sendsType "event") [].
Proof.
  apply (closed_session_gets_no_event
           [Upstream sampleEvent; IntervalFires 0; Upstream sampleEvent]
           staleSystem _ 1
           {| receiveEvents := true; _outstandingPing := false;
              socket := {| readyState := CLOSED; calls := [] |} |});
    reflexivity.
Defined.

(** X15: the version envelope is the first thing every session is sent: in
    every state reached from a fresh registry, the first transport call of
    every session is the [send] of an envelope of type ["version"]. *)
Theorem version_is_sent_first inputs s r c :
  run Clients.new inputs = Some s →
  Forall freshConnection inputs →
  heap s !! r = Some c →
  ∃ frame later,
    calls (socket c) = CallSend frame :: later
    ∧ frameType frame = Some "version".
Proof.
  intros Hrun Hfresh Hr.
  apply (run_session_backward
           (λ c, ∃ frame later, calls (socket c) = CallSend frame :: later
                                ∧ frameType frame = Some "version")
           freshConnection r)
    with (inputs := inputs) (s := Clients.new) (s' := s); try done.
  - intros c0 env parsed _ (frame & later & Hcalls & Hty).
    destruct (receiveMessage_calls env parsed c0)
      as (_ & _ & [(_ & -> & _)|[[_ ->]|(msg & frame' & _ & -> & _)]]);
      rewrite ?Hcalls; eauto.
  - intros c1 c2 Hmove (frame & later & Hcalls & Hty).
    destruct Hmove as [| | |event Hflags]; simpl; rewrite ?Hcalls; eauto.
  - intros env sock Hfr. simpl in Hfr. simpl. rewrite Hfr. eauto.
Qed.

Lemma version_is_sent_first_witness :
  ∃ frame later,
    calls (socket
      (Client.receiveMessage sampleEnv
         (Some (commandEnvelope "1" "controller.get_state"))
         (Client.sendVersion sampleEnv (Client.new openSocket))).1)
    = CallSend frame :: later
    ∧ frameType frame = Some "version".
Proof.
  apply (version_is_sent_first quietRun
           (default Clients.new (run Clients.new quietRun)) 0).
  - reflexivity.
  - repeat constructor.
  - reflexivity.
Defined.

(** X16: upstream events reach a session in the order the forwarder
    delivers them: after a run of upstream events, a tracked session that
    was listening and connected has been sent their envelopes, one each, in
    that order, and any other tracked session has been sent nothing. *)
Theorem events_arrive_in_order events s s' r c :
  run s (Upstream <$> events) = Some s' →
  NoDup (clients (registry s)) →
  r ∈ clients (registry s) →
  heap s !! r = Some c →
  ∃ c', heap s' !! r = Some c'
    ∧ calls (socket c')
      = calls (socket c)
        ++ (if receiveEvents c && Client.isConnected c
            then (λ event, CallSend (eventEnvelope event)) <$> events
            else [])
    ∧ receiveEvents c' = receiveEvents c
    ∧ readyState (socket c') = readyState (socket c).
Proof.
  revert s c. induction events as [|event events IH];
    intros s c Hrun Hnd Hin Hr.
  { simpl in Hrun. injection Hrun as <-. exists c.
    split; [done|].
    destruct (receiveEvents c && Client.isConnected c); simpl;
      by rewrite app_nil_r. }
  rewrite fmap_cons in Hrun. unfold run in Hrun; fold run in Hrun.
  destruct (step s (Upstream event)) as [s1|] eqn:Hstep; [|done].
  assert (s1 = Clients.fanOut event s) as ->.
  { unfold step in Hstep.
    destruct (eventForwarder (registry s)) as [[[|]]|]; simpl in Hstep;
      congruence. }
  assert (Hr1 : heap (Clients.fanOut event s) !! r
                = Some (if receiveEvents c && Client.isConnected c
                        then Client.sendEvent event c else c)).
  { unfold Clients.fanOut. simpl. rewrite fanOutLoop_lookup by done.
    rewrite decide_True by done. by rewrite Hr. }
  set (c1 := if receiveEvents c && Client.isConnected c
             then Client.sendEvent event c else c) in *.
  assert (H1 : receiveEvents c1 = receiveEvents c
               ∧ Client.isConnected c1 = Client.isConnected c
               ∧ readyState (socket c1) = readyState (socket c)
               ∧ calls (socket c1)
                 = calls (socket c)
                   ++ if receiveEvents c && Client.isConnected c
                      then [CallSend (eventEnvelope event)] else []).
  { subst c1. destruct (receiveEvents c && Client.isConnected c).
    - repeat split; reflexivity.
    - by rewrite app_nil_r. }
  destruct H1 as (He1 & Hc1 & Hrs1 & Hcalls1).
  destruct (IH (Clients.fanOut event s) c1 Hrun Hnd Hin Hr1)
    as (c' & Hc' & Hcalls & Hev & Hrs).
  exists c'. split; [done|].
  rewrite Hcalls, Hev, Hrs, He1, Hc1, Hrs1, Hcalls1, <- app_assoc.
  split; [|done]. f_equal.
  by destruct (receiveEvents c && Client.isConnected c).
Qed.

Lemma events_arrive_in_order_witness :
  ∃ c', heap (default twoSessions
                (run twoSessions (Upstream <$> [sampleEvent; JNull]))) !! 0
        = Some c'
    ∧ calls (socket c')
      = [] ++ ((λ event, CallSend (eventEnvelope event))
                 <$> [sampleEvent; JNull])
    ∧ receiveEvents c' = true
    ∧ readyState (socket c') = OPEN.
Proof.
  apply (events_arrive_in_order [sampleEvent; JNull] twoSessions _ 0
           {| receiveEvents := true; _outstandingPing := false;
              socket := openSocket |}).
  - reflexivity.
  - vm_compute. apply NoDup_cons. split.
    + intros H%list_elem_of_singleton. discriminate H.
    + apply NoDup_singleton.
  - vm_compute. apply list_elem_of_here.
  - reflexivity.
Defined.




(** ** The server object *)

Lemma run_consistent inputs : ∀ s s',
  consistent s → run s inputs = Some s' → consistent s'.
Proof.
  induction inputs as [|i inputs IH]; intros s s' Hs; simpl.
  - by intros [= <-].
  - destruct (step s i) as [s1|] eqn:Hstep; simpl; [|done].
    apply IH. by eapply step_consistent.
Qed.

Lemma deliverAll_run inputs : ∀ z z' s,
  sockets z = Some s →
  ZwavejsServer.deliverAll inputs z = Some z' →
  ∃ s', run s inputs = Some s'
    ∧ sockets z' = Some s'
    ∧ server z' = server z.
Proof.
  induction inputs as [|i inputs IH]; intros z z' s Hs; simpl.
  { intros [= <-]. by exists s. }
  unfold ZwavejsServer.deliver. rewrite Hs. simpl.
  destruct (step s i) as [s1|]; simpl; [|done].
  intros Hrest. by apply (IH _ _ s1) in Hrest.
Qed.

(** X18: after [start()] and whatever then happens to the registry,
    [destroy()] leaves the listener closed, no sweep timer running and an
    empty session set, and has called [close] on every session that was
    tracked, none of which is connected any more; a second [destroy()]
    changes nothing. *)
Theorem destroy_after_activity inputs z0 z :
  ZwavejsServer.deliverAll inputs (ZwavejsServer.start z0) = Some z →
  ∃ s, sockets z = Some s
    ∧ server (ZwavejsServer.destroy z) = Some {| listening := false |}
    ∧ sockets (ZwavejsServer.destroy z) = Some (Clients.disconnect s)
    ∧ intervals (Clients.disconnect s) = []
    ∧ clients (registry (Clients.disconnect s)) = []
    ∧ (∀ r, r ∈ clients (registry s) →
         ∃ c, heap s !! r = Some c
              ∧ heap (Clients.disconnect s) !! r = Some (Client.disconnect c)
              ∧ Client.isConnected (Client.disconnect c) = false)
    ∧ ZwavejsServer.destroy (ZwavejsServer.destroy z) = ZwavejsServer.destroy z.
Proof.
  intros Hall.
  destruct (deliverAll_run inputs (ZwavejsServer.start z0) z Clients.new
              eq_refl Hall)
    as (s & Hrun & Hs & Hserver).
  assert (Hcons : consistent s)
    by (eapply run_consistent; [apply consistent_new|exact Hrun]).
  destruct Hcons as [Hnd Hbound Hint Hclean].
  exists s. split; [done|].
  unfold ZwavejsServer.destroy. rewrite Hs, Hserver. simpl.
  split; [done|]. split; [done|]. split.
  { rewrite Hint.
    destruct (pingInterval (registry s)); [apply clearInterval_own|done]. }
  split; [done|]. split; [|done].
  intros r Hin. rewrite Forall_forall in Hbound. apply Hbound in Hin as Hlt.
  apply lookup_lt_is_Some_2 in Hlt as [c Hc]. exists c. split; [done|].
  split; [|apply disconnect_not_connected].
  rewrite disconnectAll_lookup by done. rewrite decide_True by done.
  by rewrite Hc.
Qed.

Lemma destroy_after_activity_witness :
  ∃ s, sockets (default ZwavejsServer.new
                  (ZwavejsServer.deliverAll quietRun
                     (ZwavejsServer.start ZwavejsServer.new))) = Some s
    ∧ intervals (Clients.disconnect s) = []
    ∧ clients (registry (Clients.disconnect s)) = [].
Proof.
  destruct (destroy_after_activity quietRun ZwavejsServer.new
              (default ZwavejsServer.new
                 (ZwavejsServer.deliverAll quietRun
                    (ZwavejsServer.start ZwavejsServer.new))) eq_refl)
    as (s & Hs & _ & _ & Hi & Hc & _).
  exists s. repeat split; assumption.
Defined.

(** ** The declared envelopes *)


Lemma stringify_keeps_strings key str props :
  assoc key props = Some (JString str) →
  field key (JSON_stringify (JObject props)) = Some (JString str).
Proof.
  simpl. induction props as [|[k v] props IH]; simpl; [done|].
  destruct (String.eqb k key) eqn:Hk.
  - intros [= ->]. simpl. by rewrite Hk.
  - intros Hrest. destruct v; simpl; rewrite ?Hk; by apply IH.
Qed.

(** X20: an upstream event of the declared shape [OutgoingEvent] (a
    [source] among the three origins and a string [event]) is put on the
    wire as an envelope of the declared shape [OutgoingEventMessage], with
    its [source] and [event] unchanged. *)
Theorem event_envelope_declared_shape event :
  OutgoingMessages.OutgoingEvent event →
  OutgoingMessages.OutgoingEventMessage (eventEnvelope event)
  ∧ ∃ sent, field "event" (eventEnvelope event) = Some sent
      ∧ field "source" sent = field "source" event
      ∧ field "event" sent = field "event" event.
Proof.
  intros [Hsource [name Hname]].
  destruct event as [| |b|n|str|items|props];
    try (destruct Hsource as [H|[H|H]]; discriminate H).
  assert (Hn : field "event" (JSON_stringify (JObject props))
               = Some (JString name))
    by (by apply stringify_keeps_strings).
  assert (Hs : field "source" (JSON_stringify (JObject props))
               = field "source" (JObject props)).
  { destruct Hsource as [H|[H|H]]; rewrite H;
      by apply stringify_keeps_strings. }
  split.
  - split; [reflexivity|]. exists (JSON_stringify (JObject props)).
    split; [reflexivity|]. split; [by rewrite Hs|by exists name].
  - exists (JSON_stringify (JObject props)). split; [reflexivity|].
    split; [done|]. by rewrite Hn.
Qed.

Lemma event_envelope_declared_shape_witness :
  OutgoingMessages.OutgoingEventMessage (eventEnvelope sampleEvent).
Proof.
  apply (event_envelope_declared_shape sampleEvent).
  split; [right; left; reflexivity|by exists "wake up"].
Defined.

Lemma inherited_group_dispatched_witness :
  ∃ mid, getProp "messageId" (commandEnvelope "1" "toString.x") = inr mid ∧
    Client.dispatch sampleEnv (commandEnvelope "1" "toString.x") sampleClient =
      match Object_prototype_call sampleEnv (groupOf "toString.x")
              (commandEnvelope "1" "toString.x") with
      | Resolve result =>
          Client.Normal (Client.sendResultSuccess mid result sampleClient)
      | Reject err => Client.Throw err sampleClient
      end.
Proof.
  apply (inherited_group_dispatched sampleEnv
           (commandEnvelope "1" "toString.x") "toString.x" sampleClient).
  - reflexivity.
  - discriminate.
  - reflexivity.
  - vm_compute. tauto.
Defined.

(** X23: the registry never probes: in every state reached from a fresh
    registry, however often the interval has fired, no session has a probe
    outstanding and no [ping] was ever called on its socket;
    [checkAlive] has no caller. *)
Theorem registry_never_probes inputs s r c :
  run Clients.new inputs = Some s →
  Forall freshConnection inputs →
  heap s !! r = Some c →
  _outstandingPing c = false
  ∧ countCalls isPingCall (calls (socket c)) = 0.
Proof.
  intros Hrun Hfresh Hr.
  apply (run_session_backward
           (λ c, _outstandingPing c = false
                 ∧ countCalls isPingCall (calls (socket c)) = 0)
           freshConnection r)
    with (inputs := inputs) (s := Clients.new) (s' := s); try done.
  - intros c0 env parsed _ [Hflag Hcount].
    destruct (receiveMessage_calls env parsed c0)
      as (-> & _ & [(_ & -> & _)|[[_ ->]|(msg & frame & _ & -> & _)]]);
      rewrite ?countCalls_snoc; simpl; split; first [done|lia].
  - intros c1 c2 Hmove [Hflag Hcount].
    destruct Hmove as [| | |event Hflags]; simpl;
      rewrite ?countCalls_snoc; simpl; split; first [done|lia].
  - intros env sock Hfr. simpl in Hfr. split; [done|].
    simpl. rewrite Hfr. reflexivity.
Qed.

Lemma registry_never_probes_witness :
  _outstandingPing (Client.sendVersion sampleEnv (Client.new openSocket))
  = false
  ∧ countCalls isPingCall
      (calls (socket (Client.sendVersion sampleEnv (Client.new openSocket))))
    = 0.
Proof.
  apply (registry_never_probes
           [Connection sampleEnv openSocket; IntervalFires 0; IntervalFires 0]
           (default Clients.new
              (run Clients.new
                 [Connection sampleEnv openSocket; IntervalFires 0;
                  IntervalFires 0])) 0).
  - reflexivity.
  - repeat constructor.
  - reflexivity.
Defined.
